(** * SparcMCCodeEmitter: operand-value resolution and the 5-bit immediate codec

    A shallow embedding of
    [llvm/lib/Target/Sparc/MCTargetDesc/SparcMCCodeEmitter.cpp].

    C++ integers are mathematical integers ([Z]) with every conversion
    between widths written out; [report_fatal_error], an [assert] that
    fires and undefined behaviour are values of [Fatal]; the fixup vector
    that the emitter's methods receive by reference is threaded through
    them explicitly. *)

From Stdlib Require Import ZArith List Ascii String Bool Lia.
Import ListNotations.

Local Open Scope string_scope.
Local Open Scope list_scope.
Local Open Scope Z_scope.

(** ** Machine integers *)

Module CInt.

(** Conversion to [unsigned] (32 bits): reduction modulo 2^32. *)
Definition to_unsigned (z : Z) : Z := z mod 2 ^ 32.

(** Conversion of an [unsigned] bit pattern to [signed]
    (two's complement). *)
Definition to_signed (z : Z) : Z :=
  let u := to_unsigned z in
  if u <? 2 ^ 31 then u else u - 2 ^ 32.

(** [a % b] of C++: the remainder of the division that truncates
    towards zero. *)
Definition c_rem (a b : Z) : Z := Z.rem a b.

(** Index of the lowest set bit of [x], searching [fuel] positions
    upwards from [k]. *)
Fixpoint lowest_set_bit (fuel : nat) (x k : Z) : Z :=
  match fuel with
  | O => k
  | S fuel' => if Z.testbit x k then k else lowest_set_bit fuel' x (k + 1)
  end.

(** [__builtin_ctz]: its argument is converted to [unsigned]; the result
    is undefined for 0, which is [None] here. *)
Definition builtin_ctz (x : Z) : option Z :=
  let u := to_unsigned x in
  if u =? 0 then None else Some (lowest_set_bit 32 u 0).

End CInt.

(** ** Failures *)

Inductive Fatal : Type :=
| FatalError (msg : string)       (* report_fatal_error *)
| AssertionFailed (msg : string)  (* assert, in a build without NDEBUG *)
| Unreachable (msg : string)      (* llvm_unreachable *)
| Undefined (what : string).      (* behaviour C++ leaves undefined *)

Definition Result (A : Type) : Type := (Fatal + A)%type.

Module Msg.
Definition imm5_range :=
  "Invalid value for ImmOp5: Value must be within [0, 255] range".
Definition imm5_verify :=
  "Invalid value for SImmOp5: Value must be representable by immediate{4}*2+2^(immediate{3-1})-immediate{0}".
Definition simm5_range :=
  "Invalid value for SImmOp5: Value must be within [127, -128] range".
Definition simm5_verify :=
  "Invalid value for SImmOp5: Value must be representable by immediate{4}?-1:1*(2^(immediate{3-1})-immediate{0})".
Definition ctz_zero := "__builtin_ctz(0)".
End Msg.

(** ** The compact immediate codec *)

Module Codec.
Import CInt.

(** [SparcMCCodeEmitter::imm5OpEncoder].  [value] is the [int64_t]
    local, [result] the [unsigned] one. *)
Definition imm5OpEncoder (imm : Z) : Result Z :=
  let value := imm in
  if value =? 0 then inr 1
  else if (value >? 255) || (value <? 0) then inl (FatalError Msg.imm5_range)
  else
    let result := 0 in
    let '(value, result) :=
      if c_rem value 2 =? 1 then (value + 1, Z.lor result 1)
      else (value, result) in
    let '(value, result) :=
      if (Z.land value 2 =? 2) && (value >? 2)
      then (value - 2, Z.lor result 16)
      else (value, result) in
    match builtin_ctz value with
    | None => inl (Undefined Msg.ctz_zero)
    | Some tz =>
        let result := Z.lor result (to_unsigned (Z.shiftl tz 1)) in
        (* verification *)
        let plus := Z.land (Z.shiftr result 3) 2 in
        let sub := Z.land result 1 in
        let exp := to_unsigned (Z.shiftl 1 (Z.land (Z.shiftr result 1) 7)) in
        let tgt := to_unsigned (exp + plus - sub) in
        if negb (tgt =? imm) then inl (FatalError Msg.imm5_verify)
        else inr result
    end.

(** [SparcMCCodeEmitter::sImm5OpEncoder].  [sign] and [tgt] are [signed]
    locals, [sub], [exp] and [result] [unsigned] ones; [sign * (exp - sub)]
    is therefore computed on [unsigned] and converted back. *)
Definition sImm5OpEncoder (imm : Z) : Result Z :=
  let value := imm in
  if value =? 0 then inr 1
  else if (value >? 127) || (value <? -128)
  then inl (FatalError Msg.simm5_range)
  else
    let result := 0 in
    let '(value, result) :=
      if value <? 0 then (- value, 16) else (value, result) in
    let '(value, result) :=
      if c_rem value 2 =? 1 then (value + 1, Z.lor result 1)
      else (value, result) in
    match builtin_ctz value with
    | None => inl (Undefined Msg.ctz_zero)
    | Some tz =>
        let result := Z.lor result (to_unsigned (Z.shiftl tz 1)) in
        (* verification *)
        let sign := if negb (Z.shiftr result 4 =? 0) then -1 else 1 in
        let sub := Z.land result 1 in
        let exp := to_unsigned (Z.shiftl 1 (Z.land (Z.shiftr result 1) 7)) in
        let tgt :=
          to_signed (to_unsigned (to_unsigned sign * to_unsigned (exp - sub))) in
        if negb (tgt =? imm) then inl (FatalError Msg.simm5_verify)
        else inr result
    end.

(** The decode formulas, as the specification words them, on
    mathematical integers. *)
Definition spec_decode_imm5 (code : Z) : Z :=
  2 ^ (Z.land (Z.shiftr code 1) 7)
  + 2 * Z.land (Z.shiftr code 4) 1
  - Z.land code 1.

Definition spec_decode_simm5 (code : Z) : Z :=
  let sign := if Z.testbit code 4 then -1 else 1 in
  sign * (2 ^ (Z.land (Z.shiftr code 1) 7) - Z.land code 1).

End Codec.

(** ** The MC layer: expressions, operands, instructions, fixups *)

Definition MCRegister : Type := N.
Bind Scope N_scope with MCRegister.

(** [SparcMCExpr::VariantKind], declared in SparcMCExpr.h: an enumeration
    that this file never inspects, kept by its enumerator number. *)
Definition VariantKind : Type := N.
Bind Scope N_scope with VariantKind.

(** [MCFixupKind] with the members of [Sparc::Fixups] that the emitter
    names; the other members of SparcFixupKinds.h are kept by number. *)
Inductive MCFixupKind : Type :=
| fixup_sparc_13
| fixup_sparc_got13
| fixup_sparc_5
| fixup_sparc_got5
| fixup_sparc_br22
| fixup_sparc_br19
| fixup_sparc_br16_2
| fixup_sparc_br16_14
| fixup_sparc_other (n : N).

(** [MCExpr] and its subclasses, one constructor per [MCExpr::ExprKind];
    the target kind is [SparcMCExpr]. *)
Inductive MCExpr : Type :=
| MCBinaryExpr (Op : N) (LHS RHS : MCExpr)
| MCConstantExpr (Value : Z)
| MCSymbolRefExpr (Symbol : string)
| MCUnaryExpr (Op : N) (Expr : MCExpr)
| SparcMCExpr (Kind : VariantKind) (Expr : MCExpr).

Inductive ExprKind : Type := Binary | Constant | SymbolRef | Unary | Target.

Definition getKind (E : MCExpr) : ExprKind :=
  match E with
  | MCBinaryExpr _ _ _ => Binary
  | MCConstantExpr _ => Constant
  | MCSymbolRefExpr _ => SymbolRef
  | MCUnaryExpr _ _ => Unary
  | SparcMCExpr _ _ => Target
  end.

(** [dyn_cast<MCConstantExpr>]: the constant's value, when it is one. *)
Definition dyn_cast_MCConstantExpr (E : MCExpr) : option Z :=
  match E with MCConstantExpr v => Some v | _ => None end.

(** [dyn_cast<SparcMCExpr>]: variant kind and sub-expression. *)
Definition dyn_cast_SparcMCExpr (E : MCExpr) : option (VariantKind * MCExpr) :=
  match E with SparcMCExpr k sub => Some (k, sub) | _ => None end.

Definition getSubExpr (SExpr : VariantKind * MCExpr) : MCExpr := snd SExpr.

(** Modelled from the spec: [MCOperand] is declared in llvm/MC/MCInst.h,
    which is not part of the sources at hand.  The specification gives the
    operand as a tagged union of register, immediate and expression, and
    names an operand that is none of the three a contract violation;
    [MO_Invalid] stands for every such operand. *)
Inductive MCOperand : Type :=
| MO_Invalid
| MO_Reg (Reg : MCRegister)
| MO_Imm (Imm : Z)
| MO_Expr (Expr : MCExpr).

Definition isReg (MO : MCOperand) : bool :=
  match MO with MO_Reg _ => true | _ => false end.
Definition isImm (MO : MCOperand) : bool :=
  match MO with MO_Imm _ => true | _ => false end.
Definition isExpr (MO : MCOperand) : bool :=
  match MO with MO_Expr _ => true | _ => false end.

(** The accessors read a union member; reading another member than the
    one stored is undefined. *)
Definition getReg (MO : MCOperand) : Result MCRegister :=
  match MO with
  | MO_Reg r => inr r
  | _ => inl (Undefined "MCOperand::getReg: not a register")
  end.
Definition getImm (MO : MCOperand) : Result Z :=
  match MO with
  | MO_Imm i => inr i
  | _ => inl (Undefined "MCOperand::getImm: not an immediate")
  end.
Definition getExpr (MO : MCOperand) : Result MCExpr :=
  match MO with
  | MO_Expr e => inr e
  | _ => inl (Undefined "MCOperand::getExpr: not an expression")
  end.

(** The opcodes of namespace [SP] that the emitter names; the others are
    kept by number. *)
Inductive Opcode : Type :=
| TLS_CALL
| TLS_ADDrr
| TLS_ADDXrr
| TLS_LDrr
| TLS_LDXrr
| SP_other (n : N).

Record MCInst : Type := mkMCInst {
  getOpcode : Opcode;
  Operands : list MCOperand
}.

(** [MI.getOperand(OpNo)]; an index past the end is undefined. *)
Definition getOperand (MI : MCInst) (OpNo : nat) : Result MCOperand :=
  match nth_error (Operands MI) OpNo with
  | Some MO => inr MO
  | None => inl (Undefined "MCInst::getOperand: index out of range")
  end.

Record MCFixup : Type := mkMCFixup {
  getOffset : Z;
  getValue : MCExpr;
  getFixupKindOf : MCFixupKind
}.

(** [MCFixup::create(Offset, Value, Kind)]. *)
Definition MCFixup_create (Offset : Z) (Value : MCExpr) (Kind : MCFixupKind)
  : MCFixup := mkMCFixup Offset Value Kind.

Definition FeatureBitset : Type := N.
Bind Scope N_scope with FeatureBitset.

Record MCSubtargetInfo : Type := mkSTI { getFeatureBits : FeatureBitset }.

(** What the emitter asks of its [MCContext &Ctx]. *)
Record MCContext : Type := mkCtx {
  (* the encoding table behind Ctx.getRegisterInfo() *)
  RegEncodingTable : MCRegister -> Z;
  (* Ctx.getObjectFileInfo()->isPositionIndependent() *)
  isPositionIndependent : bool;
  (* Ctx.getAsmInfo()->isLittleEndian() *)
  isLittleEndian : bool
}.

(** [Ctx.getRegisterInfo()->getEncodingValue(Reg)], a [uint16_t]. *)
Definition getEncodingValue (Ctx : MCContext) (Reg : MCRegister) : Z :=
  RegEncodingTable Ctx Reg mod 2 ^ 16.

(** ** Methods that push onto the fixup vector *)

Module Emit.

(** A method that receives [SmallVectorImpl<MCFixup> &Fixups]: from the
    vector at entry to the outcome and the vector at exit (or at the
    point of failure). *)
Definition t (A : Type) : Type := list MCFixup -> Result A * list MCFixup.

Definition ret {A} (a : A) : t A := fun Fixups => (inr a, Fixups).

Definition fail {A} (f : Fatal) : t A := fun Fixups => (inl f, Fixups).

Definition bind {A B} (m : t A) (k : A -> t B) : t B :=
  fun Fixups =>
    match m Fixups with
    | (inr a, Fixups') => k a Fixups'
    | (inl f, Fixups') => (inl f, Fixups')
    end.

Definition lift {A} (r : Result A) : t A :=
  fun Fixups => (r, Fixups).

(** [Fixups.push_back(F)]. *)
Definition push_back (F : MCFixup) : t unit :=
  fun Fixups => (inr tt, Fixups ++ [F]).

End Emit.

Notation "x <- m ;; k" := (Emit.bind m (fun x => k))
  (at level 61, m at next level, right associativity).
Notation "m ;; k" := (Emit.bind m (fun _ => k))
  (at level 61, right associativity).

(** [assert(cond && msg)]: compiled out when [NDEBUG] is defined. *)
Definition assert (NDEBUG : bool) (cond : bool) (msg : string) : Result unit :=
  if NDEBUG then inr tt
  else if cond then inr tt else inl (AssertionFailed msg).

Definition Opcode_eqb (a b : Opcode) : bool :=
  match a, b with
  | TLS_CALL, TLS_CALL | TLS_ADDrr, TLS_ADDrr | TLS_ADDXrr, TLS_ADDXrr
  | TLS_LDrr, TLS_LDrr | TLS_LDXrr, TLS_LDXrr => true
  | SP_other n, SP_other m => N.eqb n m
  | _, _ => false
  end.

(** The callee check of the [#ifndef NDEBUG] block. *)
Definition is_SymbolRef_named (E : MCExpr) (name : string) : bool :=
  match E with
  | MCSymbolRefExpr sym => String.eqb sym name
  | _ => false
  end.

Inductive endianness : Type := big | little.

(** [support::endian::write] of a 4-byte [unsigned]. *)
Definition endian_write (Bits : Z) (E : endianness) : list Z :=
  let byte k := Z.land (Z.shiftr Bits (8 * k)) 255 in
  match E with
  | little => [byte 0; byte 1; byte 2; byte 3]
  | big => [byte 3; byte 2; byte 1; byte 0]
  end.

(** Modelled from the spec: [MCNumEmitted] is declared through the
    [STATISTIC] macro of llvm/ADT/Statistic.h, which is not part of the
    sources at hand; the specification describes an increment-only
    counter, here a natural number beside the stream and the fixup
    vector that [encodeInstruction] writes to. *)
Record EmitterState : Type := mkState {
  OS : list Z;
  Fixups : list MCFixup;
  MCNumEmitted : N
}.

(** ** The emitter's operand-value methods *)

Section SparcMCCodeEmitter.

(** Whether the build defines [NDEBUG]. *)
Variable NDEBUG : bool.

(** The member [Ctx]. *)
Variable Ctx : MCContext.

(** [SparcMCExpr::getFixupKind], a table of SparcMCExpr.cpp. *)
Variable getFixupKind : VariantKind -> MCFixupKind.

(** [MCExpr::evaluateAsAbsolute], of MCExpr.cpp: the constant an
    expression folds to, when it does. *)
Variable evaluateAsAbsolute : MCExpr -> option Z.

Definition SExpr_getFixupKind (SExpr : VariantKind * MCExpr) : MCFixupKind :=
  getFixupKind (fst SExpr).

Definition getMachineOpValue (MI : MCInst) (MO : MCOperand)
    (STI : MCSubtargetInfo) : Emit.t Z :=
  if isReg MO then
    Reg <- Emit.lift (getReg MO) ;;
    Emit.ret (CInt.to_unsigned (getEncodingValue Ctx Reg))
  else if isImm MO then
    Imm <- Emit.lift (getImm MO) ;;
    Emit.ret (CInt.to_unsigned Imm)
  else
    Emit.lift (assert NDEBUG (isExpr MO) "MO.isExpr()") ;;
    Expr <- Emit.lift (getExpr MO) ;;
    match dyn_cast_SparcMCExpr Expr with
    | Some SExpr =>
        let Kind := SExpr_getFixupKind SExpr in
        Emit.push_back (MCFixup_create 0 Expr Kind) ;;
        Emit.ret 0
    | None =>
        match evaluateAsAbsolute Expr with
        | Some Res => Emit.ret (CInt.to_unsigned Res)
        | None => Emit.fail (Unreachable "Unhandled expression!")
        end
    end.

Definition getSImm13OpValue (MI : MCInst) (OpNo : nat)
    (STI : MCSubtargetInfo) : Emit.t Z :=
  MO <- Emit.lift (getOperand MI OpNo) ;;
  if isImm MO then
    Imm <- Emit.lift (getImm MO) ;;
    Emit.ret (CInt.to_unsigned Imm)
  else
    Emit.lift (assert NDEBUG (isExpr MO)
      "getSImm13OpValue expects only expressions or an immediate") ;;
    Expr <- Emit.lift (getExpr MO) ;;
    (* Constant value, no fixup is needed *)
    match dyn_cast_MCConstantExpr Expr with
    | Some CE => Emit.ret (CInt.to_unsigned CE)
    | None =>
        let Kind :=
          match dyn_cast_SparcMCExpr Expr with
          | Some SExpr => SExpr_getFixupKind SExpr
          | None =>
              let IsPic := isPositionIndependent Ctx in
              if IsPic then fixup_sparc_got13 else fixup_sparc_13
          end in
        Emit.push_back (MCFixup_create 0 Expr Kind) ;;
        Emit.ret 0
    end.

Definition getImm5OpValue (MI : MCInst) (OpNo : nat)
    (STI : MCSubtargetInfo) : Emit.t Z :=
  MO <- Emit.lift (getOperand MI OpNo) ;;
  if isImm MO then
    Imm <- Emit.lift (getImm MO) ;;
    Emit.lift (Codec.imm5OpEncoder Imm)
  else
    Emit.lift (assert NDEBUG (isExpr MO)
      "getSImm5OpValue expects only expressions or an immediate") ;;
    Expr <- Emit.lift (getExpr MO) ;;
    (* Constant value, no fixup is needed *)
    match dyn_cast_MCConstantExpr Expr with
    | Some CE => Emit.lift (Codec.imm5OpEncoder CE)
    | None =>
        let Kind :=
          match dyn_cast_SparcMCExpr Expr with
          | Some SExpr => SExpr_getFixupKind SExpr
          | None =>
              let IsPic := isPositionIndependent Ctx in
              if IsPic then fixup_sparc_got5 else fixup_sparc_5
          end in
        Emit.push_back (MCFixup_create 0 Expr Kind) ;;
        Emit.ret 0
    end.

Definition getSImm5OpValue (MI : MCInst) (OpNo : nat)
    (STI : MCSubtargetInfo) : Emit.t Z :=
  MO <- Emit.lift (getOperand MI OpNo) ;;
  if isImm MO then
    Imm <- Emit.lift (getImm MO) ;;
    Emit.lift (Codec.sImm5OpEncoder Imm)
  else
    Emit.lift (assert NDEBUG (isExpr MO)
      "getSImm5OpValue expects only expressions or an immediate") ;;
    Expr <- Emit.lift (getExpr MO) ;;
    (* Constant value, no fixup is needed *)
    match dyn_cast_MCConstantExpr Expr with
    | Some CE => Emit.lift (Codec.sImm5OpEncoder CE)
    | None =>
        let Kind :=
          match dyn_cast_SparcMCExpr Expr with
          | Some SExpr => SExpr_getFixupKind SExpr
          | None =>
              let IsPic := isPositionIndependent Ctx in
              if IsPic then fixup_sparc_got5 else fixup_sparc_5
          end in
        Emit.push_back (MCFixup_create 0 Expr Kind) ;;
        Emit.ret 0
    end.

Definition getCallTargetOpValue (MI : MCInst) (OpNo : nat)
    (STI : MCSubtargetInfo) : Emit.t Z :=
  MO <- Emit.lift (getOperand MI OpNo) ;;
  Expr <- Emit.lift (getExpr MO) ;;
  let SExpr := dyn_cast_SparcMCExpr Expr in
  if Opcode_eqb (getOpcode MI) TLS_CALL then
    (* No fixups for __tls_get_addr. Will emit for fixups for tls_symbol
       in encodeInstruction. *)
    Emit.lift (assert NDEBUG
      match SExpr with
      | Some SE =>
          match getKind (getSubExpr SE) with SymbolRef => true | _ => false end
      | None => false
      end "Unexpected expression in TLS_CALL") ;;
    Emit.lift (assert NDEBUG
      match SExpr with
      | Some SE => is_SymbolRef_named (getSubExpr SE) "__tls_get_addr"
      | None => false
      end "Unexpected function for TLS_CALL") ;;
    Emit.ret 0
  else
    match SExpr with
    | None => Emit.fail (Undefined "SExpr->getFixupKind() on a null SExpr")
    | Some SE =>
        let Kind := SExpr_getFixupKind SE in
        Emit.push_back (MCFixup_create 0 Expr Kind) ;;
        Emit.ret 0
    end.

Definition getBranchTargetOpValue (MI : MCInst) (OpNo : nat)
    (STI : MCSubtargetInfo) : Emit.t Z :=
  MO <- Emit.lift (getOperand MI OpNo) ;;
  if isReg MO || isImm MO then getMachineOpValue MI MO STI
  else
    Expr <- Emit.lift (getExpr MO) ;;
    Emit.push_back (MCFixup_create 0 Expr fixup_sparc_br22) ;;
    Emit.ret 0.

Definition getBranchPredTargetOpValue (MI : MCInst) (OpNo : nat)
    (STI : MCSubtargetInfo) : Emit.t Z :=
  MO <- Emit.lift (getOperand MI OpNo) ;;
  if isReg MO || isImm MO then getMachineOpValue MI MO STI
  else
    Expr <- Emit.lift (getExpr MO) ;;
    Emit.push_back (MCFixup_create 0 Expr fixup_sparc_br19) ;;
    Emit.ret 0.

Definition getBranchOnRegTargetOpValue (MI : MCInst) (OpNo : nat)
    (STI : MCSubtargetInfo) : Emit.t Z :=
  MO <- Emit.lift (getOperand MI OpNo) ;;
  if isReg MO || isImm MO then getMachineOpValue MI MO STI
  else
    Expr <- Emit.lift (getExpr MO) ;;
    Emit.push_back (MCFixup_create 0 Expr fixup_sparc_br16_2) ;;
    Expr' <- Emit.lift (getExpr MO) ;;
    Emit.push_back (MCFixup_create 0 Expr' fixup_sparc_br16_14) ;;
    Emit.ret 0.

(** ** encodeInstruction *)

(** The pieces that SparcGenMCCodeEmitter.inc, included at the end of
    the file, supplies. *)
Variable computeAvailableFeatures : FeatureBitset -> FeatureBitset.
Variable verifyInstructionPredicates : MCInst -> FeatureBitset -> Result unit.
Variable getBinaryCodeForInstr : MCInst -> MCSubtargetInfo -> Emit.t Z.

Definition encodeInstruction (MI : MCInst) (STI : MCSubtargetInfo)
    (s : EmitterState) : Result unit * EmitterState :=
  match verifyInstructionPredicates MI
          (computeAvailableFeatures (getFeatureBits STI)) with
  | inl f => (inl f, s)
  | inr _ =>
      match getBinaryCodeForInstr MI STI (Fixups s) with
      | (inl f, Fixups1) => (inl f, mkState (OS s) Fixups1 (MCNumEmitted s))
      | (inr code, Fixups1) =>
          let Bits := CInt.to_unsigned code in
          let OS1 :=
            OS s ++ endian_write Bits
                      (if isLittleEndian Ctx then little else big) in
          let tlsOpNo :=
            match getOpcode MI with
            | TLS_CALL => 1%nat
            | TLS_ADDrr | TLS_ADDXrr | TLS_LDrr | TLS_LDXrr => 3%nat
            | _ => 0%nat
            end in
          if negb (Nat.eqb tlsOpNo 0) then
            match (MO <- Emit.lift (getOperand MI tlsOpNo) ;;
                   op <- getMachineOpValue MI MO STI ;;
                   Emit.lift (assert NDEBUG (op =? 0)
                                "Unexpected operand value!")) Fixups1 with
            | (inl f, Fixups2) =>
                (inl f, mkState OS1 Fixups2 (MCNumEmitted s))
            | (inr _, Fixups2) =>
                (* Keep track of the # of mi's emitted. *)
                (inr tt, mkState OS1 Fixups2 (MCNumEmitted s + 1)%N)
            end
          else
            (inr tt, mkState OS1 Fixups1 (MCNumEmitted s + 1)%N)
      end
  end.

End SparcMCCodeEmitter.

(** ** A concrete emitter

    The generated pieces are not part of the file; to run the emitter a
    small table stands in for them: [TLS_CALL] places its call target,
    opcode 1 a 5-bit magnitude immediate (operand 1), opcode 2 a signed
    one (operand 1), opcode 3 a branch-on-register displacement
    (operand 0).  Feature bit 0 is required by opcode 9. *)

Module Sample.

Definition Ctx : MCContext := mkCtx (fun r => Z.of_N r) false false.

Definition getFixupKind (k : VariantKind) : MCFixupKind :=
  fixup_sparc_other k.

Definition evaluateAsAbsolute (E : MCExpr) : option Z :=
  match E with MCConstantExpr v => Some v | _ => None end.

Definition computeAvailableFeatures (FB : FeatureBitset) : FeatureBitset := FB.

Definition verifyInstructionPredicates (MI : MCInst) (FB : FeatureBitset)
  : Result unit :=
  match getOpcode MI with
  | SP_other 9 =>
      if N.testbit FB 0 then inr tt
      else inl (FatalError "Attempting to emit an instruction with missing features")
  | _ => inr tt
  end.

Definition getBinaryCodeForInstr (NDEBUG : bool) (MI : MCInst)
    (STI : MCSubtargetInfo) : Emit.t Z :=
  match getOpcode MI with
  | TLS_CALL =>
      op <- getCallTargetOpValue NDEBUG getFixupKind MI 0 STI ;;
      Emit.ret (Z.lor 1073741824 op)
  | SP_other 1 =>
      op <- getImm5OpValue NDEBUG Ctx getFixupKind MI 1 STI ;;
      Emit.ret (Z.shiftl op 5)
  | SP_other 2 =>
      op <- getSImm5OpValue NDEBUG Ctx getFixupKind MI 1 STI ;;
      Emit.ret (Z.shiftl op 5)
  | SP_other 3 =>
      op <- getBranchOnRegTargetOpValue NDEBUG Ctx getFixupKind
              evaluateAsAbsolute MI 0 STI ;;
      Emit.ret op
  | _ => Emit.ret 0
  end.

Definition encode (NDEBUG : bool) :=
  encodeInstruction NDEBUG Ctx getFixupKind evaluateAsAbsolute
    computeAvailableFeatures verifyInstructionPredicates
    (getBinaryCodeForInstr NDEBUG).

Definition STI : MCSubtargetInfo := mkSTI 0.

Definition s0 : EmitterState := mkState [] [] 7.

Definition tls_get_addr : MCExpr :=
  SparcMCExpr 30 (MCSymbolRefExpr "__tls_get_addr").

Definition tls_sym : MCExpr := SparcMCExpr 31 (MCSymbolRefExpr "x").

Definition call_tls : MCInst :=
  mkMCInst TLS_CALL [MO_Expr tls_get_addr; MO_Expr tls_sym].

(* opcode 1 with a symbol, and with immediates, in its immediate slot *)
Definition imm5_sym : MCInst :=
  mkMCInst (SP_other 1) [MO_Reg 1; MO_Expr (MCSymbolRefExpr "x")].
Definition imm5_of (v : Z) : MCInst :=
  mkMCInst (SP_other 1) [MO_Reg 1; MO_Imm v].

(* opcode 3 branching to a label, to an immediate and to a register *)
Definition br_label : MCInst :=
  mkMCInst (SP_other 3) [MO_Expr (MCSymbolRefExpr "L"); MO_Reg 2].
Definition br_imm : MCInst := mkMCInst (SP_other 3) [MO_Imm 12; MO_Reg 2].
Definition br_reg : MCInst := mkMCInst (SP_other 3) [MO_Reg 5; MO_Reg 2].

(* an immediate just past the signed 13-bit range [-4096, 4095] *)
Definition simm13_4096 : MCInst :=
  mkMCInst (SP_other 4) [MO_Reg 1; MO_Imm 4096].

(* a TLS add whose operand 3 is a plain immediate *)
Definition tls_add_imm : MCInst :=
  mkMCInst TLS_ADDrr [MO_Reg 1; MO_Reg 2; MO_Reg 3; MO_Imm 4].

End Sample.

(** * DarwinSDKInfo: the version mapping of related targets

    A shallow embedding of [clang/lib/Basic/DarwinSDKInfo.cpp].  The
    classes it computes with, [llvm::VersionTuple], [llvm::DenseMap] and
    [llvm::json::Value], are declared elsewhere: the version tuple is a
    parameter, given by the operations the file calls; the map and the
    JSON value are kept by what the file observes of them. *)

Module Darwin.

(** The operations of [llvm::VersionTuple] that the file calls. *)
Class VersionTupleOps (VersionTuple : Type) : Type := {
  (* VersionTuple(unsigned Major) *)
  ofMajor : N -> VersionTuple;
  getMajor : VersionTuple -> N;
  (* Optional<unsigned> getMinor() *)
  getMinor : VersionTuple -> option N;
  normalize : VersionTuple -> VersionTuple;
  (* operator< ; X > Y is Y < X *)
  ltb : VersionTuple -> VersionTuple -> bool;
  (* operator==, the equality of the keys of a DenseMap *)
  eqb : VersionTuple -> VersionTuple -> bool;
  (* tryParse returns true on a string that is no version: None here *)
  tryParse : string -> option VersionTuple
}.

(** [llvm::json::Value], by its kinds; an object is the sequence of its
    members in the order the iteration visits them. *)
#[warnings="-register-all"]
Inductive JValue : Type :=
| JNull
| JBoolean (b : bool)
| JNumber (n : Z)
| JString (s : string)
| JArray (elements : list JValue)
| JObject (members : list (string * JValue)).

Definition JObjectT : Type := list (string * JValue).

Definition getAsString (V : JValue) : option string :=
  match V with JString s => Some s | _ => None end.

Definition getAsObject (V : JValue) : option JObjectT :=
  match V with JObject o => Some o | _ => None end.

(** [Obj.get(Key)]: the member of that name. *)
Fixpoint get (Obj : JObjectT) (Key : string) : option JValue :=
  match Obj with
  | [] => None
  | (K, V) :: rest => if String.eqb K Key then Some V else get rest Key
  end.

(** [Obj.getString(Key)] and [Obj.getObject(Key)]. *)
Definition getString (Obj : JObjectT) (Key : string) : option string :=
  match get Obj Key with Some V => getAsString V | None => None end.

Definition getObject (Obj : JObjectT) (Key : string) : option JObjectT :=
  match get Obj Key with Some V => getAsObject V | None => None end.

Section RelatedTargetVersionMapping.

Context {VersionTuple : Type} {VT : VersionTupleOps VersionTuple}.

(** [llvm::DenseMap<VersionTuple, VersionTuple>], by what the file
    observes: [Mapping[Key] = Value], [Mapping.find(Key)] and
    [Mapping.empty()].  The latest assignment to a key is met first. *)
Definition DenseMap : Type := list (VersionTuple * VersionTuple).

Definition assign (Key Value : VersionTuple) (M : DenseMap) : DenseMap :=
  (Key, Value) :: M.

Fixpoint find (Key : VersionTuple) (M : DenseMap) : option VersionTuple :=
  match M with
  | [] => None
  | (K, V) :: M' => if eqb K Key then Some V else find Key M'
  end.

Definition empty (M : DenseMap) : bool :=
  match M with [] => true | _ => false end.

(** The members that the constructor receives, in its order. *)
Record RelatedTargetVersionMapping : Type := mkRelatedTargetVersionMapping {
  MinimumKeyVersion : VersionTuple;
  MaximumKeyVersion : VersionTuple;
  MinimumValue : VersionTuple;
  MaximumValue : VersionTuple;
  Mapping : DenseMap
}.

(** [RelatedTargetVersionMapping::map], with the depth of its recursion
    bounded by [fuel]; the outer [None] is a call that ran out of it. *)
Fixpoint map_rec (fuel : nat) (R : RelatedTargetVersionMapping)
    (Key MinimumValue : VersionTuple) (MaximumValue : option VersionTuple)
  : option (option VersionTuple) :=
  match fuel with
  | O => None
  | S fuel' =>
      if ltb Key (MinimumKeyVersion R) then Some (Some MinimumValue)
      else if ltb (MaximumKeyVersion R) Key then Some MaximumValue
      else
        match find (normalize Key) (Mapping R) with
        | Some V => Some (Some V)
        | None =>
            (* If no exact entry found, try just the major key version. *)
            match getMinor Key with
            | Some _ =>
                map_rec fuel' R (ofMajor (getMajor Key))
                  MinimumValue MaximumValue
            | None =>
                (* If this a major only key, return None for a missing
                   entry. *)
                Some None
            end
        end
  end.

(** The locals of [parseJSON] that the loop updates. *)
Record ParseState : Type := mkParseState {
  Min_ : VersionTuple;
  Max_ : VersionTuple;
  MinValue_ : VersionTuple;
  Mapping_ : DenseMap
}.

(** The loop of [parseJSON] over the members of [Obj]; [None] is the
    [return None] inside it. *)
Fixpoint parseJSON_loop (Obj : JObjectT) (st : ParseState)
  : option ParseState :=
  match Obj with
  | [] => Some st
  | (K, V) :: rest =>
      match getAsString V with
      | Some Val =>
          match tryParse K, tryParse Val with
          | Some KeyVersion, Some ValueVersion =>
              parseJSON_loop rest
                (mkParseState
                   (if ltb KeyVersion (Min_ st) then KeyVersion else Min_ st)
                   (if ltb (Max_ st) KeyVersion then KeyVersion else Max_ st)
                   (if ltb ValueVersion (MinValue_ st)
                    then ValueVersion else MinValue_ st)
                   (assign (normalize KeyVersion) ValueVersion (Mapping_ st)))
          | _, _ => None
          end
      | None => parseJSON_loop rest st
      end
  end.

(** [std::numeric_limits<unsigned>::max()]. *)
Definition UINT_MAX : N := 4294967295.

(** [RelatedTargetVersionMapping::parseJSON]. *)
Definition parseJSON (Obj : JObjectT) (MaximumDeploymentTarget : VersionTuple)
  : option RelatedTargetVersionMapping :=
  let Min := ofMajor UINT_MAX in
  let Max := ofMajor 0 in
  let MinValue := Min in
  match parseJSON_loop Obj (mkParseState Min Max MinValue []) with
  | None => None
  | Some st =>
      if empty (Mapping_ st) then None
      else Some (mkRelatedTargetVersionMapping
                   (Min_ st) (Max_ st) (MinValue_ st) MaximumDeploymentTarget
                   (Mapping_ st))
  end.

(** The static [getVersionKey]. *)
Definition getVersionKey (Obj : JObjectT) (Key : string)
  : option VersionTuple :=
  match getString Obj Key with
  | None => None
  | Some Value => tryParse Value
  end.

(** [DarwinSDKInfo], with the one version mapping that the parser can
    store, the one of [OSEnvPair::macOStoMacCatalystPair()]; [None] there
    is a map without that entry. *)
Record DarwinSDKInfo : Type := mkDarwinSDKInfo {
  Version : VersionTuple;
  MaximumDeploymentTarget : VersionTuple;
  macOStoMacCatalyst : option RelatedTargetVersionMapping
}.

(** [DarwinSDKInfo::parseDarwinSDKSettingsJSON]. *)
Definition parseDarwinSDKSettingsJSON (Obj : JObjectT) : option DarwinSDKInfo :=
  match getVersionKey Obj "Version" with
  | None => None
  | Some Version =>
      match getVersionKey Obj "MaximumDeploymentTarget" with
      | None => None
      | Some MaximumDeploymentVersion =>
          match getObject Obj "VersionMap" with
          | Some VM =>
              match getObject VM "macOS_iOSMac" with
              | Some Mapping =>
                  match parseJSON Mapping MaximumDeploymentVersion with
                  | None => None
                  | Some VersionMap =>
                      Some (mkDarwinSDKInfo Version MaximumDeploymentVersion
                              (Some VersionMap))
                  end
              | None =>
                  Some (mkDarwinSDKInfo Version MaximumDeploymentVersion None)
              end
          | None =>
              Some (mkDarwinSDKInfo Version MaximumDeploymentVersion None)
          end
      end
  end.

End RelatedTargetVersionMapping.

Arguments DenseMap : clear implicits.
Arguments RelatedTargetVersionMapping : clear implicits.
Arguments ParseState : clear implicits.
Arguments DarwinSDKInfo : clear implicits.

End Darwin.

(** ** A concrete version tuple

    Major and optional minor number, enough to run the mapping: ordered
    and compared by the numbers, an absent minor counting as 0, and
    normalised by dropping a minor that is 0. *)

Module DarwinSample.

Record V : Type := mkV { major : N; minor : option N }.

Definition minor_or_0 (x : V) : N :=
  match minor x with Some m => m | None => 0%N end.

Definition V_ltb (x y : V) : bool :=
  (major x <? major y)%N
  || ((major x =? major y)%N && (minor_or_0 x <? minor_or_0 y)%N).

Definition V_eqb (x y : V) : bool :=
  (major x =? major y)%N && (minor_or_0 x =? minor_or_0 y)%N.

Definition V_normalize (x : V) : V :=
  match minor x with
  | Some 0%N => mkV (major x) None
  | _ => x
  end.

Definition digit (c : Ascii.ascii) : option N :=
  let n := Ascii.N_of_ascii c in
  if ((48 <=? n) && (n <=? 57))%N then Some (n - 48)%N else None.

(** The decimal number that [s] spells after the digits read so far. *)
Fixpoint digits (s : string) (acc : N) : option N :=
  match s with
  | EmptyString => Some acc
  | String c s' =>
      match digit c with
      | Some d => digits s' (acc * 10 + d)%N
      | None => None
      end
  end.

Definition number (s : string) : option N :=
  match s with EmptyString => None | _ => digits s 0%N end.

(** Splits [s] at its first dot. *)
Fixpoint split_dot (s : string) : string * option string :=
  match s with
  | EmptyString => (EmptyString, None)
  | String c s' =>
      if Ascii.eqb c "."%char then (EmptyString, Some s')
      else let '(a, b) := split_dot s' in (String c a, b)
  end.

Definition V_tryParse (s : string) : option V :=
  match split_dot s with
  | (a, None) =>
      match number a with Some M => Some (mkV M None) | None => None end
  | (a, Some b) =>
      match number a, number b with
      | Some M, Some m => Some (mkV M (Some m))
      | _, _ => None
      end
  end.

Definition Ops : Darwin.VersionTupleOps V :=
  {| Darwin.ofMajor := fun M => mkV M None;
     Darwin.getMajor := major;
     Darwin.getMinor := minor;
     Darwin.normalize := V_normalize;
     Darwin.ltb := V_ltb;
     Darwin.eqb := V_eqb;
     Darwin.tryParse := V_tryParse |}.

(* the macOS_iOSMac member of an SDKSettings.json *)
Definition macOS_iOSMac : Darwin.JObjectT :=
  [("10.15", Darwin.JString "13.1");
   ("11.0", Darwin.JString "14.0");
   ("11.2", Darwin.JString "14.3");
   ("comment", Darwin.JNumber 1)].

Definition SDKSettings : Darwin.JObjectT :=
  [("Version", Darwin.JString "11.3");
   ("MaximumDeploymentTarget", Darwin.JString "11.3");
   ("VersionMap",
    Darwin.JObject [("macOS_iOSMac", Darwin.JObject macOS_iOSMac)])].

End DarwinSample.

(** * Properties *)

(** ** Machine integers *)

Lemma to_unsigned_small (z : Z) : 0 <= z < 2 ^ 32 -> CInt.to_unsigned z = z.
Proof. intros H. unfold CInt.to_unsigned. now apply Z.mod_small. Qed.

Lemma to_unsigned_range (z : Z) : 0 <= CInt.to_unsigned z < 2 ^ 32.
Proof. unfold CInt.to_unsigned. apply Z.mod_pos_bound. reflexivity. Qed.

Lemma getEncodingValue_unsigned (Ctx : MCContext) (Reg : MCRegister) :
  CInt.to_unsigned (getEncodingValue Ctx Reg) = getEncodingValue Ctx Reg.
Proof.
  apply to_unsigned_small. unfold getEncodingValue.
  pose proof (Z.mod_pos_bound (RegEncodingTable Ctx Reg) (2 ^ 16) eq_refl).
  change (2 ^ 32) with 4294967296. change (2 ^ 16) with 65536 in *. lia.
Qed.

(** ** The codec on its two domains *)

Module CodecFacts.
Import Codec.

(** The integers [lo], [lo + 1], ..., [lo + n - 1]. *)
Definition zrange (lo : Z) (n : nat) : list Z :=
  map (fun k => lo + Z.of_nat k) (seq 0 n).

Lemma in_zrange (lo : Z) (n : nat) (v : Z) :
  lo <= v < lo + Z.of_nat n -> In v (zrange lo n).
Proof.
  intros H. unfold zrange. apply in_map_iff.
  exists (Z.to_nat (v - lo)). split; [lia|].
  apply in_seq. lia.
Qed.

Lemma forallb_zrange (p : Z -> bool) (lo : Z) (n : nat) :
  forallb p (zrange lo n) = true ->
  forall v, lo <= v < lo + Z.of_nat n -> p v = true.
Proof.
  intros H v Hv. rewrite forallb_forall in H. apply H. now apply in_zrange.
Qed.

(** The values a 5-bit code decodes to. *)
Definition Representable (decode : Z -> Z) (v : Z) : Prop :=
  exists code, 0 <= code < 32 /\ decode code = v.

Definition representableb (decode : Z -> Z) (v : Z) : bool :=
  existsb (fun code => decode code =? v) (zrange 0 32).

Lemma representableb_spec (decode : Z -> Z) (v : Z) :
  representableb decode v = true <-> Representable decode v.
Proof.
  unfold representableb, Representable. rewrite existsb_exists. split.
  - intros (code & Hin & Heq). exists code. split; [|lia].
    unfold zrange in Hin. apply in_map_iff in Hin.
    destruct Hin as (k & <- & Hk). apply in_seq in Hk. lia.
  - intros (code & Hr & <-). exists code. split; [|apply Z.eqb_refl].
    apply in_zrange. simpl. lia.
Qed.

(** What one run of an encoder must look like: a 5-bit code that decodes
    to the input when the input is representable, the verification
    failure [msg] when it is not. *)
Definition run_ok (encode : Z -> Result Z) (decode : Z -> Z) (msg : string)
    (v : Z) : bool :=
  match encode v with
  | inr code =>
      (0 <=? code) && (code <? 32) && (decode code =? v)
      && representableb decode v
  | inl (FatalError m) => String.eqb m msg && negb (representableb decode v)
  | inl _ => false
  end.

Lemma run_ok_elim encode decode msg v :
  run_ok encode decode msg v = true ->
  (Representable decode v ->
     exists code, 0 <= code < 32 /\ encode v = inr code /\ decode code = v)
  /\ (~ Representable decode v -> encode v = inl (FatalError msg)).
Proof.
  unfold run_ok. destruct (encode v) as [[m| | |]|code]; try discriminate.
  - intros H. apply andb_true_iff in H as [Hm Hr].
    apply String.eqb_eq in Hm as ->. apply negb_true_iff in Hr. split.
    + intros HR. apply representableb_spec in HR. congruence.
    + reflexivity.
  - intros H. repeat (apply andb_true_iff in H as [H ?]). split.
    + intros _. exists code. repeat split; lia.
    + intros HR. exfalso. apply HR. now apply representableb_spec.
Qed.

Lemma imm5_runs : forallb
  (run_ok imm5OpEncoder spec_decode_imm5 Msg.imm5_verify) (zrange 0 256) = true.
Proof. vm_compute. reflexivity. Qed.

Lemma simm5_runs : forallb
  (run_ok sImm5OpEncoder spec_decode_simm5 Msg.simm5_verify)
  (zrange (-128) 256) = true.
Proof. vm_compute. reflexivity. Qed.

(** The representable magnitudes and signed values, listed. *)
Definition imm5_values : list Z :=
  [0; 1; 2; 3; 4; 5; 6; 7; 8; 9; 10; 15; 16; 17; 18; 31; 32; 33; 34;
   63; 64; 65; 66; 127; 128; 129; 130].

Definition simm5_values : list Z :=
  [-128; -127; -64; -63; -32; -31; -16; -15; -8; -7; -4; -3; -2; -1; 0;
   1; 2; 3; 4; 7; 8; 15; 16; 31; 32; 63; 64; 127].

Definition memb (v : Z) (l : list Z) : bool := existsb (Z.eqb v) l.

Lemma memb_spec v l : memb v l = true <-> In v l.
Proof.
  unfold memb. rewrite existsb_exists. split.
  - intros (x & Hin & Hx). apply Z.eqb_eq in Hx. now subst.
  - intros H. exists v. split; [assumption | apply Z.eqb_refl].
Qed.

Lemma imm5_values_exact v :
  0 <= v <= 255 -> (Representable spec_decode_imm5 v <-> In v imm5_values).
Proof.
  intros Hv. rewrite <- representableb_spec, <- memb_spec.
  assert (H : Bool.eqb (representableb spec_decode_imm5 v)
                (memb v imm5_values) = true).
  { apply (forallb_zrange
             (fun v => Bool.eqb (representableb spec_decode_imm5 v)
                         (memb v imm5_values)) 0 256);
      [vm_compute; reflexivity | simpl; lia]. }
  apply Bool.eqb_prop in H. now rewrite H.
Qed.

Lemma simm5_values_exact v :
  -128 <= v <= 127 -> (Representable spec_decode_simm5 v <-> In v simm5_values).
Proof.
  intros Hv. rewrite <- representableb_spec, <- memb_spec.
  assert (H : Bool.eqb (representableb spec_decode_simm5 v)
                (memb v simm5_values) = true).
  { apply (forallb_zrange
             (fun v => Bool.eqb (representableb spec_decode_simm5 v)
                         (memb v simm5_values)) (-128) 256);
      [vm_compute; reflexivity | simpl; lia]. }
  apply Bool.eqb_prop in H. now rewrite H.
Qed.

(** Outside its domain an encoder stops at the range check. *)
Lemma imm5_out_of_domain v :
  v < 0 \/ 255 < v -> imm5OpEncoder v = inl (FatalError Msg.imm5_range).
Proof.
  intros H. unfold imm5OpEncoder.
  destruct (Z.eqb_spec v 0) as [->|_]; [lia|].
  destruct (Z.gtb_spec v 255), (Z.ltb_spec v 0); simpl; solve [reflexivity | lia].
Qed.

Lemma simm5_out_of_domain v :
  v < -128 \/ 127 < v -> sImm5OpEncoder v = inl (FatalError Msg.simm5_range).
Proof.
  intros H. unfold sImm5OpEncoder.
  destruct (Z.eqb_spec v 0) as [->|_]; [lia|].
  destruct (Z.gtb_spec v 127), (Z.ltb_spec v (-128)); simpl;
    solve [reflexivity | lia].
Qed.

(** Over all integers: a code that an encoder returns is a 5-bit code
    that decodes to the input. *)
Lemma imm5_sound v code :
  imm5OpEncoder v = inr code -> 0 <= code < 32 /\ spec_decode_imm5 code = v.
Proof.
  intros Hrun.
  destruct (Z_lt_le_dec v 0) as [Hlo|Hlo];
    [rewrite imm5_out_of_domain in Hrun by lia; discriminate|].
  destruct (Z_lt_le_dec 255 v) as [Hhi|Hhi];
    [rewrite imm5_out_of_domain in Hrun by lia; discriminate|].
  pose proof (forallb_zrange _ 0 256 imm5_runs v ltac:(simpl; lia)) as Hok.
  unfold run_ok in Hok. rewrite Hrun in Hok.
  repeat (apply andb_true_iff in Hok as [Hok ?]). lia.
Qed.

Lemma simm5_sound v code :
  sImm5OpEncoder v = inr code -> 0 <= code < 32 /\ spec_decode_simm5 code = v.
Proof.
  intros Hrun.
  destruct (Z_lt_le_dec v (-128)) as [Hlo|Hlo];
    [rewrite simm5_out_of_domain in Hrun by lia; discriminate|].
  destruct (Z_lt_le_dec 127 v) as [Hhi|Hhi];
    [rewrite simm5_out_of_domain in Hrun by lia; discriminate|].
  pose proof (forallb_zrange _ (-128) 256 simm5_runs v ltac:(simpl; lia)) as Hok.
  unfold run_ok in Hok. rewrite Hrun in Hok.
  repeat (apply andb_true_iff in Hok as [Hok ?]). lia.
Qed.

End CodecFacts.

(** ** Claims on the codec *)

Import Codec CodecFacts.

(** C1, as stated, fails: 11 lies in [0, 255], yet [imm5OpEncoder] stops at
    its verification step there, so not every magnitude in the domain is
    encoded to a code that decodes back to it. *)
Lemma imm5_roundtrip_fails_at_11 :
  ~ (forall v, 0 <= v <= 255 ->
       exists code, imm5OpEncoder v = inr code /\ spec_decode_imm5 code = v).
Proof.
  intros H. destruct (H 11 ltac:(lia)) as (code & Hrun & _).
  vm_compute in Hrun. discriminate.
Qed.

(** C1, amended: for every integer v in [0, 255], [imm5OpEncoder] returns
    normally exactly when some 5-bit code decodes to v under
    2^((code>>1)&0b111) + 2*((code>>4)&1) - (code&1), which is the case for
    0..10, 15..18, 31..34, 63..66 and 127..130; the code it returns is a
    5-bit code that decodes to v; for every other v of the domain the
    internal verification fires. *)
Theorem imm5OpEncoder_roundtrip (v : Z) :
  0 <= v <= 255 ->
  (Representable spec_decode_imm5 v <-> In v imm5_values)
  /\ (Representable spec_decode_imm5 v ->
        exists code, 0 <= code < 32
                     /\ imm5OpEncoder v = inr code
                     /\ spec_decode_imm5 code = v)
  /\ (~ Representable spec_decode_imm5 v ->
        imm5OpEncoder v = inl (FatalError Msg.imm5_verify)).
Proof.
  intros Hv. split; [now apply imm5_values_exact|].
  apply run_ok_elim.
  apply (forallb_zrange _ 0 256 imm5_runs). simpl. lia.
Qed.

Lemma imm5OpEncoder_roundtrip_witness :
  0 <= 9 <= 255
  /\ ((Representable spec_decode_imm5 9 <-> In 9 imm5_values)
      /\ (Representable spec_decode_imm5 9 ->
            exists code, 0 <= code < 32
                         /\ imm5OpEncoder 9 = inr code
                         /\ spec_decode_imm5 code = 9)
      /\ (~ Representable spec_decode_imm5 9 ->
            imm5OpEncoder 9 = inl (FatalError Msg.imm5_verify))).
Proof.
  split; [lia | apply (imm5OpEncoder_roundtrip 9); lia].
Defined.

(** C2, as stated, fails: 5 lies in [-128, 127], yet [sImm5OpEncoder] stops
    at its verification step there. *)
Lemma simm5_roundtrip_fails_at_5 :
  ~ (forall v, -128 <= v <= 127 ->
       exists code, sImm5OpEncoder v = inr code /\ spec_decode_simm5 code = v).
Proof.
  intros H. destruct (H 5 ltac:(lia)) as (code & Hrun & _).
  vm_compute in Hrun. discriminate.
Qed.

(** C2, amended: for every integer v in [-128, 127], [sImm5OpEncoder]
    returns normally exactly when some 5-bit code decodes to v under
    sign * (2^((code>>1)&0b111) - (code&1)), sign = -1 when bit 4 is set and
    +1 otherwise, which is the case for 0, the powers of two up to 64 and
    their predecessors up to 127, and the negatives of the powers of two up
    to 128 and of their predecessors; the code it returns is a 5-bit code
    that decodes to v; for every other v of the domain the internal
    verification fires. *)
Theorem sImm5OpEncoder_roundtrip (v : Z) :
  -128 <= v <= 127 ->
  (Representable spec_decode_simm5 v <-> In v simm5_values)
  /\ (Representable spec_decode_simm5 v ->
        exists code, 0 <= code < 32
                     /\ sImm5OpEncoder v = inr code
                     /\ spec_decode_simm5 code = v)
  /\ (~ Representable spec_decode_simm5 v ->
        sImm5OpEncoder v = inl (FatalError Msg.simm5_verify)).
Proof.
  intros Hv. split; [now apply simm5_values_exact|].
  apply run_ok_elim.
  apply (forallb_zrange _ (-128) 256 simm5_runs). simpl. lia.
Qed.

Lemma sImm5OpEncoder_roundtrip_witness :
  -128 <= -4 <= 127
  /\ ((Representable spec_decode_simm5 (-4) <-> In (-4) simm5_values)
      /\ (Representable spec_decode_simm5 (-4) ->
            exists code, 0 <= code < 32
                         /\ sImm5OpEncoder (-4) = inr code
                         /\ spec_decode_simm5 code = -4)
      /\ (~ Representable spec_decode_simm5 (-4) ->
            sImm5OpEncoder (-4) = inl (FatalError Msg.simm5_verify))).
Proof.
  split; [lia | apply (sImm5OpEncoder_roundtrip (-4)); lia].
Defined.

(** C3: for every integer v outside [0, 255], [imm5OpEncoder] fails with
    its domain-range error, the check that precedes every bit operation,
    and for every integer v outside [-128, 127] so does [sImm5OpEncoder];
    neither returns a code for such a v. *)
Theorem encoders_reject_out_of_domain (v : Z) :
  (v < 0 \/ 255 < v ->
     imm5OpEncoder v = inl (FatalError Msg.imm5_range)
     /\ forall code, imm5OpEncoder v <> inr code)
  /\ (v < -128 \/ 127 < v ->
        sImm5OpEncoder v = inl (FatalError Msg.simm5_range)
        /\ forall code, sImm5OpEncoder v <> inr code).
Proof.
  split; intros H.
  - rewrite (imm5_out_of_domain v H). split; [reflexivity | discriminate].
  - rewrite (simm5_out_of_domain v H). split; [reflexivity | discriminate].
Qed.

Lemma encoders_reject_out_of_domain_witness :
  (256 < 0 \/ 255 < 256) /\ (256 < -128 \/ 127 < 256)
  /\ imm5OpEncoder 256 = inl (FatalError Msg.imm5_range)
  /\ sImm5OpEncoder 256 = inl (FatalError Msg.simm5_range).
Proof.
  destruct (encoders_reject_out_of_domain 256) as [Hu Hs].
  assert (Hd1 : 256 < 0 \/ 255 < 256) by (right; lia).
  assert (Hd2 : 256 < -128 \/ 127 < 256) by (right; lia).
  split; [exact Hd1|]. split; [exact Hd2|].
  split; [exact (proj1 (Hu Hd1)) | exact (proj1 (Hs Hd2))].
Defined.

(** C9: both encoders map 0 to the code 0b00001, through the early return:
    the bit operations that follow the range check would take the
    trailing-zero count of 0, which is undefined. *)
Theorem zero_encodes_to_00001 :
  imm5OpEncoder 0 = inr 1
  /\ sImm5OpEncoder 0 = inr 1
  /\ CInt.builtin_ctz 0 = None.
Proof. repeat split. Qed.

(** ** Claims on the operand-value methods and on encodeInstruction *)

Section EmitterProperties.

Variable NDEBUG : bool.
Variable Ctx : MCContext.
Variable getFixupKind : VariantKind -> MCFixupKind.
Variable evaluateAsAbsolute : MCExpr -> option Z.
Variable computeAvailableFeatures : FeatureBitset -> FeatureBitset.
Variable verifyInstructionPredicates : MCInst -> FeatureBitset -> Result unit.
Variable getBinaryCodeForInstr : MCInst -> MCSubtargetInfo -> Emit.t Z.

Local Abbreviation getMachineOpValue' :=
  (getMachineOpValue NDEBUG Ctx getFixupKind evaluateAsAbsolute).
Local Abbreviation getSImm13OpValue' := (getSImm13OpValue NDEBUG Ctx getFixupKind).
Local Abbreviation getImm5OpValue' := (getImm5OpValue NDEBUG Ctx getFixupKind).
Local Abbreviation getCallTargetOpValue' :=
  (getCallTargetOpValue NDEBUG getFixupKind).
Local Abbreviation getBranchTargetOpValue' :=
  (getBranchTargetOpValue NDEBUG Ctx getFixupKind evaluateAsAbsolute).
Local Abbreviation getBranchOnRegTargetOpValue' :=
  (getBranchOnRegTargetOpValue NDEBUG Ctx getFixupKind evaluateAsAbsolute).
Local Abbreviation encodeInstruction' :=
  (encodeInstruction NDEBUG Ctx getFixupKind evaluateAsAbsolute
     computeAvailableFeatures verifyInstructionPredicates
     getBinaryCodeForInstr).

(** An assertion on a true condition passes in either build. *)
Lemma assert_true (msg : string) : assert NDEBUG true msg = inr tt.
Proof. unfold assert. now destruct NDEBUG. Qed.

(** Unfolds a method at an operand that is known. *)
Ltac run_at H :=
  unfold Emit.bind, Emit.lift, Emit.ret, Emit.push_back, Emit.fail;
  rewrite H; simpl; rewrite ?assert_true; simpl.

(** [getMachineOpValue] on an expression annotated with a Sparc
    relocation kind: value 0 and one fixup of that kind. *)
Lemma getMachineOpValue_SparcMCExpr MI STI k sub Fx :
  getMachineOpValue' MI (MO_Expr (SparcMCExpr k sub)) STI Fx
  = (inr 0,
     Fx ++ [MCFixup_create 0 (SparcMCExpr k sub) (getFixupKind k)]).
Proof.
  unfold getMachineOpValue, Emit.bind, Emit.lift, Emit.ret,
    Emit.push_back. simpl. rewrite assert_true. reflexivity.
Qed.

(** C4: an operand of [getSImm13OpValue] or [getImm5OpValue] that is an
    expression other than a constant gets one fixup whose kind is the
    expression's own Sparc relocation kind when it carries one, and
    otherwise the got13 (got5) tag under position-independent code and
    the plain 13 (5) tag without it. *)
Theorem imm_fixup_kind_selection MI OpNo STI Expr Fx :
  getOperand MI OpNo = inr (MO_Expr Expr) ->
  getKind Expr <> Constant ->
  (forall k sub, Expr = SparcMCExpr k sub ->
     getSImm13OpValue' MI OpNo STI Fx
     = (inr 0, Fx ++ [MCFixup_create 0 Expr (getFixupKind k)])
     /\ getImm5OpValue' MI OpNo STI Fx
        = (inr 0, Fx ++ [MCFixup_create 0 Expr (getFixupKind k)]))
  /\ (getKind Expr <> Target -> isPositionIndependent Ctx = true ->
        getSImm13OpValue' MI OpNo STI Fx
        = (inr 0, Fx ++ [MCFixup_create 0 Expr fixup_sparc_got13])
        /\ getImm5OpValue' MI OpNo STI Fx
           = (inr 0, Fx ++ [MCFixup_create 0 Expr fixup_sparc_got5]))
  /\ (getKind Expr <> Target -> isPositionIndependent Ctx = false ->
        getSImm13OpValue' MI OpNo STI Fx
        = (inr 0, Fx ++ [MCFixup_create 0 Expr fixup_sparc_13])
        /\ getImm5OpValue' MI OpNo STI Fx
           = (inr 0, Fx ++ [MCFixup_create 0 Expr fixup_sparc_5])).
Proof.
  intros HMO HnC.
  unfold getSImm13OpValue, getImm5OpValue.
  run_at HMO.
  destruct Expr as [op l r | c | sym | op e | k' sub'];
    try (exfalso; apply HnC; reflexivity); simpl;
    (split; [intros k sub Hk; inversion Hk; subst; split; reflexivity|]);
    (split; intros HnT Hpic; try (exfalso; apply HnT; reflexivity);
     rewrite Hpic; split; reflexivity).
Qed.

(** C5: on an expression operand [getBranchOnRegTargetOpValue] appends
    two fixups on that expression, the br16_2 one then the br16_14 one,
    and returns 0. *)
Theorem branch_on_reg_two_fixups MI OpNo STI Expr Fx :
  getOperand MI OpNo = inr (MO_Expr Expr) ->
  getBranchOnRegTargetOpValue' MI OpNo STI Fx
  = (inr 0,
     Fx ++ [MCFixup_create 0 Expr fixup_sparc_br16_2;
            MCFixup_create 0 Expr fixup_sparc_br16_14]).
Proof.
  intros HMO. unfold getBranchOnRegTargetOpValue.
  run_at HMO. now rewrite <- app_assoc.
Qed.

(** C7: [getBranchTargetOpValue] returns the register's encoding for a
    register operand and the immediate, in the [unsigned] return type,
    for an immediate operand, both with the fixups untouched; on an
    expression operand it appends one br22 fixup and returns 0. *)
Theorem branch_target_value MI OpNo STI Fx :
  (forall Reg, getOperand MI OpNo = inr (MO_Reg Reg) ->
     getBranchTargetOpValue' MI OpNo STI Fx
     = (inr (getEncodingValue Ctx Reg), Fx))
  /\ (forall Imm, getOperand MI OpNo = inr (MO_Imm Imm) ->
        getBranchTargetOpValue' MI OpNo STI Fx
        = (inr (CInt.to_unsigned Imm), Fx)
        /\ (0 <= Imm < 2 ^ 32 ->
              getBranchTargetOpValue' MI OpNo STI Fx = (inr Imm, Fx)))
  /\ (forall Expr, getOperand MI OpNo = inr (MO_Expr Expr) ->
        getBranchTargetOpValue' MI OpNo STI Fx
        = (inr 0, Fx ++ [MCFixup_create 0 Expr fixup_sparc_br22])).
Proof.
  unfold getBranchTargetOpValue. repeat split.
  - intros Reg HMO. run_at HMO.
    unfold getMachineOpValue, Emit.bind, Emit.lift, Emit.ret.
    simpl. now rewrite getEncodingValue_unsigned.
  - run_at H. reflexivity.
  - intros Hr. run_at H.
    unfold getMachineOpValue, Emit.bind, Emit.lift, Emit.ret.
    simpl. now rewrite to_unsigned_small.
  - intros Expr HMO. run_at HMO. reflexivity.
Qed.

(** C10: on an immediate operand [getSImm13OpValue] returns the
    immediate in the [unsigned] return type and leaves the fixups
    untouched, whatever the immediate: no range check stands in the
    way, also outside the signed 13-bit range. *)
Theorem simm13_immediate_unchecked MI OpNo STI Imm Fx :
  getOperand MI OpNo = inr (MO_Imm Imm) ->
  getSImm13OpValue' MI OpNo STI Fx = (inr (CInt.to_unsigned Imm), Fx)
  /\ (0 <= Imm < 2 ^ 32 -> getSImm13OpValue' MI OpNo STI Fx = (inr Imm, Fx)).
Proof.
  intros HMO. unfold getSImm13OpValue. run_at HMO.
  split; [reflexivity|]. intros Hr. now rewrite to_unsigned_small.
Qed.

(** C6: for [TLS_CALL] the call-target operand, the reference to
    [__tls_get_addr], makes [getCallTargetOpValue] return 0 with the
    fixups untouched; [encodeInstruction] then takes operand 1 of
    [TLS_CALL], operand 3 of the TLS add and load register forms, through
    [getMachineOpValue]: that operand, a symbol that carries its Sparc
    relocation kind, yields 0 and its fixup is appended after those of the
    instruction word. *)
Theorem tls_call_target_and_symbol MI STI s :
  (forall OpNo Expr Fx,
     getOpcode MI = TLS_CALL ->
     getOperand MI OpNo = inr (MO_Expr Expr) ->
     NDEBUG = true
     \/ (exists k, Expr = SparcMCExpr k (MCSymbolRefExpr "__tls_get_addr")) ->
     getCallTargetOpValue' MI OpNo STI Fx = (inr 0, Fx))
  /\ (forall n k sub code Fx1,
        (getOpcode MI = TLS_CALL /\ n = 1%nat)
        \/ (In (getOpcode MI) [TLS_ADDrr; TLS_ADDXrr; TLS_LDrr; TLS_LDXrr]
            /\ n = 3%nat) ->
        getOperand MI n = inr (MO_Expr (SparcMCExpr k sub)) ->
        verifyInstructionPredicates MI
          (computeAvailableFeatures (getFeatureBits STI)) = inr tt ->
        getBinaryCodeForInstr MI STI (Fixups s) = (inr code, Fx1) ->
        let reloc := MCFixup_create 0 (SparcMCExpr k sub) (getFixupKind k) in
        getMachineOpValue' MI (MO_Expr (SparcMCExpr k sub)) STI Fx1
        = (inr 0, Fx1 ++ [reloc])
        /\ encodeInstruction' MI STI s
           = (inr tt,
              mkState
                (OS s ++ endian_write (CInt.to_unsigned code)
                           (if isLittleEndian Ctx then little else big))
                (Fx1 ++ [reloc])
                (MCNumEmitted s + 1)%N)).
Proof.
  split.
  - intros OpNo Expr Fx Hop HMO Hcallee.
    unfold getCallTargetOpValue. run_at HMO. rewrite Hop. simpl.
    destruct Hcallee as [-> | (k & ->)]; simpl; [reflexivity|].
    rewrite !assert_true. reflexivity.
  - intros n k sub code Fx1 Hn HMO Hverify Hbits reloc.
    split; [apply getMachineOpValue_SparcMCExpr|].
    unfold encodeInstruction. rewrite Hverify, Hbits.
    assert (Hsel : match getOpcode MI with
                   | TLS_CALL => 1%nat
                   | TLS_ADDrr | TLS_ADDXrr | TLS_LDrr | TLS_LDXrr => 3%nat
                   | SP_other _ => 0%nat
                   end = n /\ n <> 0%nat).
    { destruct Hn as [[-> ->] | [Hin ->]]; [split; [reflexivity | discriminate]|].
      simpl in Hin.
      destruct Hin as [<- | [<- | [<- | [<- | []]]]];
        (split; [reflexivity | discriminate]). }
    destruct Hsel as [-> Hnz].
    apply Nat.eqb_neq in Hnz. rewrite Hnz. simpl.
    unfold Emit.bind at 1. unfold Emit.lift at 1. rewrite HMO.
    unfold Emit.bind. rewrite getMachineOpValue_SparcMCExpr.
    unfold Emit.lift. simpl. rewrite assert_true. reflexivity.
Qed.

(** C8: a call of [encodeInstruction] that returns leaves [MCNumEmitted]
    one higher than it found it; a call that ends in a fatal failure,
    wherever it stops, leaves the counter as it found it. *)
Theorem emission_counter MI STI s :
  match encodeInstruction' MI STI s with
  | (inr _, s') => MCNumEmitted s' = (MCNumEmitted s + 1)%N
  | (inl _, s') => MCNumEmitted s' = MCNumEmitted s
  end.
Proof.
  unfold encodeInstruction.
  destruct (verifyInstructionPredicates MI _) as [f | []]; [reflexivity|].
  destruct (getBinaryCodeForInstr MI STI (Fixups s)) as [[f | code] Fx1];
    [reflexivity|].
  destruct (negb _); [|reflexivity].
  match goal with
  | |- context [ Emit.bind ?m ?k Fx1 ] =>
      destruct (Emit.bind m k Fx1) as [[f | u] Fx2]
  end; reflexivity.
Qed.

End EmitterProperties.

(** ** The claims at concrete instructions *)

Lemma imm_fixup_kind_selection_witness :
  getOperand Sample.imm5_sym 1 = inr (MO_Expr (MCSymbolRefExpr "x"))
  /\ getKind (MCSymbolRefExpr "x") <> Constant
  /\ getSImm13OpValue false Sample.Ctx Sample.getFixupKind
       Sample.imm5_sym 1 Sample.STI []
     = (inr 0, [MCFixup_create 0 (MCSymbolRefExpr "x") fixup_sparc_13])
  /\ getImm5OpValue false Sample.Ctx Sample.getFixupKind
       Sample.imm5_sym 1 Sample.STI []
     = (inr 0, [MCFixup_create 0 (MCSymbolRefExpr "x") fixup_sparc_5]).
Proof.
  assert (H1 : getOperand Sample.imm5_sym 1
               = inr (MO_Expr (MCSymbolRefExpr "x"))) by reflexivity.
  assert (H2 : getKind (MCSymbolRefExpr "x") <> Constant) by discriminate.
  split; [exact H1|]. split; [exact H2|].
  destruct (imm_fixup_kind_selection false Sample.Ctx Sample.getFixupKind
              Sample.imm5_sym 1 Sample.STI _ [] H1 H2) as (_ & _ & Hplain).
  apply Hplain; [discriminate | reflexivity].
Defined.

Lemma branch_on_reg_two_fixups_witness :
  getOperand Sample.br_label 0 = inr (MO_Expr (MCSymbolRefExpr "L"))
  /\ getBranchOnRegTargetOpValue false Sample.Ctx Sample.getFixupKind
       Sample.evaluateAsAbsolute Sample.br_label 0 Sample.STI []
     = (inr 0,
        [MCFixup_create 0 (MCSymbolRefExpr "L") fixup_sparc_br16_2;
         MCFixup_create 0 (MCSymbolRefExpr "L") fixup_sparc_br16_14]).
Proof.
  split; [reflexivity|].
  apply (branch_on_reg_two_fixups false Sample.Ctx Sample.getFixupKind
           Sample.evaluateAsAbsolute Sample.br_label 0 Sample.STI
           (MCSymbolRefExpr "L") []).
  reflexivity.
Defined.

Lemma branch_target_value_witness :
  (getOperand Sample.br_reg 0 = inr (MO_Reg 5)
   /\ getBranchTargetOpValue false Sample.Ctx Sample.getFixupKind
        Sample.evaluateAsAbsolute Sample.br_reg 0 Sample.STI []
      = (inr 5, []))
  /\ (getOperand Sample.br_imm 0 = inr (MO_Imm 12)
      /\ 0 <= 12 < 2 ^ 32
      /\ getBranchTargetOpValue false Sample.Ctx Sample.getFixupKind
           Sample.evaluateAsAbsolute Sample.br_imm 0 Sample.STI []
         = (inr 12, []))
  /\ (getOperand Sample.br_label 0 = inr (MO_Expr (MCSymbolRefExpr "L"))
      /\ getBranchTargetOpValue false Sample.Ctx Sample.getFixupKind
           Sample.evaluateAsAbsolute Sample.br_label 0 Sample.STI []
         = (inr 0, [MCFixup_create 0 (MCSymbolRefExpr "L") fixup_sparc_br22])).
Proof.
  split; [|split].
  - split; [reflexivity|].
    apply (proj1 (branch_target_value false Sample.Ctx Sample.getFixupKind
                    Sample.evaluateAsAbsolute Sample.br_reg 0 Sample.STI [])
             5%N).
    reflexivity.
  - assert (Hr : 0 <= 12 < 2 ^ 32) by (split; [lia | reflexivity]).
    split; [reflexivity|]. split; [exact Hr|].
    apply (proj1 (proj2 (branch_target_value false Sample.Ctx
                           Sample.getFixupKind Sample.evaluateAsAbsolute
                           Sample.br_imm 0 Sample.STI [])) 12);
      [reflexivity | exact Hr].
  - split; [reflexivity|].
    apply (proj2 (proj2 (branch_target_value false Sample.Ctx
                           Sample.getFixupKind Sample.evaluateAsAbsolute
                           Sample.br_label 0 Sample.STI []))
             (MCSymbolRefExpr "L")).
    reflexivity.
Defined.

Lemma simm13_immediate_unchecked_witness :
  getOperand Sample.simm13_4096 1 = inr (MO_Imm 4096)
  /\ 0 <= 4096 < 2 ^ 32
  /\ getSImm13OpValue false Sample.Ctx Sample.getFixupKind
       Sample.simm13_4096 1 Sample.STI []
     = (inr 4096, []).
Proof.
  assert (Hr : 0 <= 4096 < 2 ^ 32) by (split; [lia | reflexivity]).
  split; [reflexivity|]. split; [exact Hr|].
  apply (proj2 (simm13_immediate_unchecked false Sample.Ctx
                  Sample.getFixupKind Sample.simm13_4096 1 Sample.STI
                  4096 [] eq_refl)).
  exact Hr.
Defined.

Lemma tls_call_target_and_symbol_witness :
  (getOpcode Sample.call_tls = TLS_CALL
   /\ getOperand Sample.call_tls 0 = inr (MO_Expr Sample.tls_get_addr)
   /\ getCallTargetOpValue false Sample.getFixupKind
        Sample.call_tls 0 Sample.STI []
      = (inr 0, []))
  /\ (getOperand Sample.call_tls 1 = inr (MO_Expr Sample.tls_sym)
      /\ Sample.verifyInstructionPredicates Sample.call_tls
           (Sample.computeAvailableFeatures (getFeatureBits Sample.STI))
         = inr tt
      /\ Sample.getBinaryCodeForInstr false Sample.call_tls Sample.STI
           (Fixups Sample.s0)
         = (inr 1073741824, [])
      /\ Sample.encode false Sample.call_tls Sample.STI Sample.s0
         = (inr tt,
            mkState [64; 0; 0; 0]
              [MCFixup_create 0 Sample.tls_sym (fixup_sparc_other 31)] 8)).
Proof.
  destruct (tls_call_target_and_symbol false Sample.Ctx Sample.getFixupKind
              Sample.evaluateAsAbsolute Sample.computeAvailableFeatures
              Sample.verifyInstructionPredicates
              (Sample.getBinaryCodeForInstr false)
              Sample.call_tls Sample.STI Sample.s0) as [Hcall Hsym].
  split.
  - split; [reflexivity|]. split; [reflexivity|].
    apply (Hcall 0%nat Sample.tls_get_addr []);
      [reflexivity | reflexivity | right; exists 30%N; reflexivity].
  - split; [reflexivity|]. split; [reflexivity|]. split; [reflexivity|].
    apply (Hsym 1%nat 31%N (MCSymbolRefExpr "x") 1073741824 []);
      [left; split; reflexivity | reflexivity | reflexivity | reflexivity].
Defined.

(** ** Runs of the concrete emitter *)

Module SampleRuns.
Import Sample.

(** A magnitude outside [0, 255] stops the encoding at the range check:
    nothing is written and the counter stays. *)
Example domain_violation :
  encode false (imm5_of 300) STI s0
  = (inl (FatalError Msg.imm5_range), s0).
Proof. reflexivity. Qed.

(** A magnitude of the domain that no code decodes to stops it at the
    verification. *)
Example verification_failure :
  encode false (imm5_of 11) STI s0
  = (inl (FatalError Msg.imm5_verify), s0).
Proof. reflexivity. Qed.

Example representable_magnitude :
  encode false (imm5_of 9) STI s0
  = (inr tt, mkState [0; 0; 2; 224] [] 8).
Proof. reflexivity. Qed.

(** An instruction whose predicate fails never reaches the stream. *)
Example missing_feature :
  fst (encode false (mkMCInst (SP_other 9) []) STI s0)
  = inl (FatalError "Attempting to emit an instruction with missing features")
  /\ snd (encode false (mkMCInst (SP_other 9) []) STI s0) = s0.
Proof. split; reflexivity. Qed.

(** A TLS add whose operand 3 is a non-zero immediate: a build with
    assertions stops after the word is written and before the counter; a
    build with [NDEBUG] counts the instruction and records no fixup. *)
Example tls_operand_immediate :
  encode false tls_add_imm STI s0
  = (inl (AssertionFailed "Unexpected operand value!"),
     mkState [0; 0; 0; 0] [] 7)
  /\ encode true tls_add_imm STI s0
     = (inr tt, mkState [0; 0; 0; 0] [] 8).
Proof. split; reflexivity. Qed.

End SampleRuns.

(** * Further properties *)

(** ** The codec beyond its round trip *)

(** An encoder's outcome is a code, its range error or its verification
    error: the trailing-zero count is never taken of 0, on any integer. *)
Theorem encoders_outcomes (v : Z) :
  ((exists code, imm5OpEncoder v = inr code)
   \/ imm5OpEncoder v = inl (FatalError Msg.imm5_range)
   \/ imm5OpEncoder v = inl (FatalError Msg.imm5_verify))
  /\ ((exists code, sImm5OpEncoder v = inr code)
      \/ sImm5OpEncoder v = inl (FatalError Msg.simm5_range)
      \/ sImm5OpEncoder v = inl (FatalError Msg.simm5_verify)).
Proof.
  split.
  - destruct (Z_lt_le_dec v 0) as [Hlo|Hlo];
      [right; left; apply imm5_out_of_domain; lia|].
    destruct (Z_lt_le_dec 255 v) as [Hhi|Hhi];
      [right; left; apply imm5_out_of_domain; lia|].
    pose proof (forallb_zrange _ 0 256 imm5_runs v ltac:(simpl; lia)) as Hok.
    unfold run_ok in Hok.
    destruct (imm5OpEncoder v) as [[m| | |]|code]; try discriminate.
    + apply andb_true_iff in Hok as [Hm _]. apply String.eqb_eq in Hm as ->.
      now right; right.
    + left. now exists code.
  - destruct (Z_lt_le_dec v (-128)) as [Hlo|Hlo];
      [right; left; apply simm5_out_of_domain; lia|].
    destruct (Z_lt_le_dec 127 v) as [Hhi|Hhi];
      [right; left; apply simm5_out_of_domain; lia|].
    pose proof (forallb_zrange _ (-128) 256 simm5_runs v ltac:(simpl; lia))
      as Hok.
    unfold run_ok in Hok.
    destruct (sImm5OpEncoder v) as [[m| | |]|code]; try discriminate.
    + apply andb_true_iff in Hok as [Hm _]. apply String.eqb_eq in Hm as ->.
      now right; right.
    + left. now exists code.
Qed.

(** Over all integers, a code returned by [imm5OpEncoder] is a 5-bit code
    that decodes to the input, the input lies in [0, 130], and no other
    input is given the same code. *)
Theorem imm5OpEncoder_injective (v code : Z) :
  imm5OpEncoder v = inr code ->
  0 <= code < 32 /\ spec_decode_imm5 code = v /\ 0 <= v <= 130
  /\ forall v', imm5OpEncoder v' = inr code -> v' = v.
Proof.
  intros Hrun. destruct (imm5_sound v code Hrun) as [Hc Hd].
  split; [exact Hc|]. split; [exact Hd|]. split.
  - assert (Hall : forallb (fun c => (0 <=? spec_decode_imm5 c)
                                     && (spec_decode_imm5 c <=? 130))
                     (zrange 0 32) = true) by (vm_compute; reflexivity).
    pose proof (forallb_zrange _ 0 32 Hall code ltac:(simpl; lia)) as Hb.
    simpl in Hb. apply andb_true_iff in Hb. lia.
  - intros v' Hrun'. destruct (imm5_sound v' code Hrun') as [_ Hd']. congruence.
Qed.

Lemma imm5OpEncoder_injective_witness :
  imm5OpEncoder 9 = inr 23
  /\ (0 <= 23 < 32 /\ spec_decode_imm5 23 = 9 /\ 0 <= 9 <= 130
      /\ forall v', imm5OpEncoder v' = inr 23 -> v' = 9).
Proof.
  split; [reflexivity | apply (imm5OpEncoder_injective 9 23); reflexivity].
Defined.

(** Over all integers, a code returned by [sImm5OpEncoder] is a 5-bit
    code that decodes to the input, and no other input is given the same
    code. *)
Theorem sImm5OpEncoder_injective (v code : Z) :
  sImm5OpEncoder v = inr code ->
  0 <= code < 32 /\ spec_decode_simm5 code = v
  /\ forall v', sImm5OpEncoder v' = inr code -> v' = v.
Proof.
  intros Hrun. destruct (simm5_sound v code Hrun) as [Hc Hd].
  split; [exact Hc|]. split; [exact Hd|].
  intros v' Hrun'. destruct (simm5_sound v' code Hrun') as [_ Hd']. congruence.
Qed.

Lemma sImm5OpEncoder_injective_witness :
  sImm5OpEncoder (-4) = inr 20
  /\ (0 <= 20 < 32 /\ spec_decode_simm5 20 = -4
      /\ forall v', sImm5OpEncoder v' = inr 20 -> v' = -4).
Proof.
  split; [reflexivity | apply (sImm5OpEncoder_injective (-4) 20); reflexivity].
Defined.

(** Every value that a 5-bit code decodes to in the magnitude form is
    accepted by [imm5OpEncoder], which returns a code of the same value;
    it returns the very code except for 0 and 16..19, whose values 1, 3,
    2, 4, 3 it encodes as 3, 5, 2, 4, 5. *)
Theorem imm5_decode_then_encode (code : Z) :
  0 <= code < 32 ->
  exists code',
    imm5OpEncoder (spec_decode_imm5 code) = inr code'
    /\ spec_decode_imm5 code' = spec_decode_imm5 code
    /\ (code' = code <-> ~ In code [0; 16; 17; 18; 19]).
Proof.
  intros Hc.
  assert (Hall : forallb
            (fun c => match imm5OpEncoder (spec_decode_imm5 c) with
                      | inr c' =>
                          (spec_decode_imm5 c' =? spec_decode_imm5 c)
                          && Bool.eqb (c' =? c) (negb (memb c [0; 16; 17; 18; 19]))
                      | inl _ => false
                      end) (zrange 0 32) = true) by (vm_compute; reflexivity).
  pose proof (forallb_zrange _ 0 32 Hall code ltac:(simpl; lia)) as Hb.
  simpl in Hb.
  destruct (imm5OpEncoder (spec_decode_imm5 code)) as [f|code'];
    [discriminate|].
  apply andb_true_iff in Hb as [Hd Hcanon].
  exists code'. split; [reflexivity|]. split; [lia|].
  apply Bool.eqb_prop in Hcanon. rewrite <- memb_spec.
  rewrite <- Z.eqb_eq, Hcanon, negb_true_iff, not_true_iff_false.
  reflexivity.
Qed.

Lemma imm5_decode_then_encode_witness :
  0 <= 16 < 32
  /\ exists code',
       imm5OpEncoder (spec_decode_imm5 16) = inr code'
       /\ spec_decode_imm5 code' = spec_decode_imm5 16
       /\ (code' = 16 <-> ~ In 16 [0; 16; 17; 18; 19]).
Proof.
  split; [lia | apply (imm5_decode_then_encode 16); lia].
Defined.

(** In the signed form the code 0b01110 decodes to 128, which
    [sImm5OpEncoder] rejects at its range check; the value of every other
    5-bit code is accepted and encoded to a code of the same value, the
    very code except for 0, 16 and 17 (encoded as 3, 19 and 1). *)
Theorem simm5_decode_then_encode (code : Z) :
  0 <= code < 32 ->
  (code = 14 ->
     spec_decode_simm5 code = 128
     /\ sImm5OpEncoder (spec_decode_simm5 code)
        = inl (FatalError Msg.simm5_range))
  /\ (code <> 14 ->
        exists code',
          sImm5OpEncoder (spec_decode_simm5 code) = inr code'
          /\ spec_decode_simm5 code' = spec_decode_simm5 code
          /\ (code' = code <-> ~ In code [0; 16; 17])).
Proof.
  intros Hc. split; [intros ->; split; reflexivity|]. intros Hne.
  assert (Hall : forallb
            (fun c => (c =? 14) ||
                      match sImm5OpEncoder (spec_decode_simm5 c) with
                      | inr c' =>
                          (spec_decode_simm5 c' =? spec_decode_simm5 c)
                          && Bool.eqb (c' =? c) (negb (memb c [0; 16; 17]))
                      | inl _ => false
                      end) (zrange 0 32) = true) by (vm_compute; reflexivity).
  pose proof (forallb_zrange _ 0 32 Hall code ltac:(simpl; lia)) as Hb.
  simpl in Hb. apply orb_true_iff in Hb as [Hb|Hb]; [lia|].
  destruct (sImm5OpEncoder (spec_decode_simm5 code)) as [f|code'];
    [discriminate|].
  apply andb_true_iff in Hb as [Hd Hcanon].
  exists code'. split; [reflexivity|]. split; [lia|].
  apply Bool.eqb_prop in Hcanon. rewrite <- memb_spec.
  rewrite <- Z.eqb_eq, Hcanon, negb_true_iff, not_true_iff_false.
  reflexivity.
Qed.

Lemma simm5_decode_then_encode_witness :
  0 <= 14 < 32
  /\ spec_decode_simm5 14 = 128
  /\ sImm5OpEncoder (spec_decode_simm5 14) = inl (FatalError Msg.simm5_range)
  /\ 0 <= 16 < 32
  /\ 16 <> 14
  /\ exists code',
       sImm5OpEncoder (spec_decode_simm5 16) = inr code'
       /\ spec_decode_simm5 code' = spec_decode_simm5 16
       /\ (code' = 16 <-> ~ In 16 [0; 16; 17]).
Proof.
  assert (H14 : 0 <= 14 < 32) by lia.
  assert (H16 : 0 <= 16 < 32) by lia.
  assert (Hne : 16 <> 14) by discriminate.
  split; [exact H14|].
  split; [exact (proj1 (proj1 (simm5_decode_then_encode 14 H14) eq_refl))|].
  split; [exact (proj2 (proj1 (simm5_decode_then_encode 14 H14) eq_refl))|].
  split; [exact H16|]. split; [exact Hne|].
  exact (proj2 (simm5_decode_then_encode 16 H16) Hne).
Defined.

(** On a non-negative value that [sImm5OpEncoder] accepts, [imm5OpEncoder]
    returns the same code. *)
Theorem signed_and_magnitude_agree (v code : Z) :
  0 <= v -> sImm5OpEncoder v = inr code -> imm5OpEncoder v = inr code.
Proof.
  intros Hv Hrun.
  destruct (Z_lt_le_dec 127 v) as [Hhi|Hhi];
    [rewrite simm5_out_of_domain in Hrun by lia; discriminate|].
  assert (Hall : forallb
            (fun v => match sImm5OpEncoder v, imm5OpEncoder v with
                      | inr a, inr b => a =? b
                      | inr _, inl _ => false
                      | inl _, _ => true
                      end) (zrange 0 128) = true) by (vm_compute; reflexivity).
  pose proof (forallb_zrange _ 0 128 Hall v ltac:(simpl; lia)) as Hb.
  simpl in Hb. rewrite Hrun in Hb.
  destruct (imm5OpEncoder v) as [f|b]; [discriminate|].
  apply Z.eqb_eq in Hb. now subst.
Qed.

Lemma signed_and_magnitude_agree_witness :
  0 <= 7 /\ sImm5OpEncoder 7 = inr 7 /\ imm5OpEncoder 7 = inr 7.
Proof.
  assert (Hv : 0 <= 7) by lia.
  split; [exact Hv|]. split; [reflexivity|].
  apply (signed_and_magnitude_agree 7 7 Hv). reflexivity.
Defined.

(** For 0 < v <= 127, [sImm5OpEncoder] accepts -v exactly when it accepts
    v, and the code of -v is the code of v with the sign bit 4 added. *)
Theorem simm5_negation (v : Z) :
  0 < v <= 127 ->
  (forall code, sImm5OpEncoder v = inr code ->
     sImm5OpEncoder (- v) = inr (code + 16))
  /\ (forall code, sImm5OpEncoder (- v) = inr code ->
        sImm5OpEncoder v = inr (code - 16)).
Proof.
  intros Hv.
  assert (Hall : forallb
            (fun v => match sImm5OpEncoder v, sImm5OpEncoder (- v) with
                      | inr a, inr b => b =? a + 16
                      | inl _, inl _ => true
                      | _, _ => false
                      end) (zrange 1 127) = true) by (vm_compute; reflexivity).
  pose proof (forallb_zrange _ 1 127 Hall v ltac:(simpl; lia)) as Hb.
  simpl in Hb.
  destruct (sImm5OpEncoder v) as [f|a]; destruct (sImm5OpEncoder (- v)) as [g|b];
    try discriminate Hb; split; intros code Hrun; try discriminate Hrun.
  - apply Z.eqb_eq in Hb. inversion Hrun. now subst.
  - apply Z.eqb_eq in Hb. inversion Hrun. subst. f_equal. lia.
Qed.

Lemma simm5_negation_witness :
  0 < 3 <= 127
  /\ sImm5OpEncoder 3 = inr 5 /\ sImm5OpEncoder (- 3) = inr (5 + 16).
Proof.
  assert (Hv : 0 < 3 <= 127) by lia.
  split; [exact Hv|]. split; [reflexivity|].
  apply (proj1 (simm5_negation 3 Hv) 5). reflexivity.
Defined.

(** ** The operand-value methods as a family *)

(** What a call of an operand-value method on the operand [MO] may do to
    the fixup vector [Fx] it is given: append [new], at most two fixups,
    each at offset 0 and on the expression of the operand; return 0
    whenever it appended; return a value of the [unsigned] range. *)
Definition operand_outcome (MO : Result MCOperand) (Fx : list MCFixup)
    (out : Result Z * list MCFixup) : Prop :=
  exists new,
    snd out = Fx ++ new
    /\ (List.length new <= 2)%nat
    /\ Forall (fun F => getOffset F = 0
                        /\ MO = inr (MO_Expr (getValue F))) new
    /\ (new <> [] -> fst out = inr 0)
    /\ (forall v, fst out = inr v -> 0 <= v < 2 ^ 32).

Section EmitterFamily.

Variable NDEBUG : bool.
Variable Ctx : MCContext.
Variable getFixupKind : VariantKind -> MCFixupKind.
Variable evaluateAsAbsolute : MCExpr -> option Z.

Local Abbreviation getMachineOpValue' :=
  (getMachineOpValue NDEBUG Ctx getFixupKind evaluateAsAbsolute).
Local Abbreviation getSImm13OpValue' := (getSImm13OpValue NDEBUG Ctx getFixupKind).
Local Abbreviation getImm5OpValue' := (getImm5OpValue NDEBUG Ctx getFixupKind).
Local Abbreviation getSImm5OpValue' := (getSImm5OpValue NDEBUG Ctx getFixupKind).
Local Abbreviation getCallTargetOpValue' :=
  (getCallTargetOpValue NDEBUG getFixupKind).
Local Abbreviation getBranchTargetOpValue' :=
  (getBranchTargetOpValue NDEBUG Ctx getFixupKind evaluateAsAbsolute).
Local Abbreviation getBranchPredTargetOpValue' :=
  (getBranchPredTargetOpValue NDEBUG Ctx getFixupKind evaluateAsAbsolute).
Local Abbreviation getBranchOnRegTargetOpValue' :=
  (getBranchOnRegTargetOpValue NDEBUG Ctx getFixupKind evaluateAsAbsolute).

Lemma small_in_unsigned v : 0 <= v < 32 -> 0 <= v < 2 ^ 32.
Proof. change (2 ^ 32) with 4294967296. lia. Qed.

(** Closes [operand_outcome] once the call is evaluated: nothing, one
    fixup or two were appended. *)
Ltac close_outcome :=
  first
    [ exists []; rewrite app_nil_r;
      split; [reflexivity|]; split; [simpl; lia|];
      split; [constructor|]; split; [congruence|]
    | eexists [_];
      split; [reflexivity|]; split; [simpl; lia|];
      split; [repeat constructor; reflexivity|]; split; [reflexivity|]
    | eexists [_; _];
      split; [simpl; rewrite <- ?app_assoc; reflexivity|]; split; [simpl; lia|];
      split; [repeat constructor; reflexivity|]; split; [reflexivity|] ];
  simpl; intros v Hv; inversion Hv; subst;
  first [ apply to_unsigned_range
        | change (2 ^ 32) with 4294967296; lia
        | idtac ].

Lemma getMachineOpValue_outcome MI MO STI Fx :
  operand_outcome (inr MO) Fx (getMachineOpValue' MI MO STI Fx).
Proof.
  unfold operand_outcome, getMachineOpValue, Emit.bind, Emit.lift, Emit.ret,
    Emit.push_back, Emit.fail, assert.
  destruct MO as [ | Reg | Imm | Expr]; simpl;
    try destruct NDEBUG; simpl; try close_outcome.
  all: destruct Expr as [op l r | c | sym | op e | k sub]; simpl;
    try destruct (evaluateAsAbsolute _); simpl; close_outcome.
Qed.

(** Unfolds a method down to its case analysis. *)
Ltac open_method m :=
  unfold operand_outcome, m, getMachineOpValue, Emit.bind, Emit.lift,
    Emit.ret, Emit.push_back, Emit.fail, assert.

Ltac split_operand MI OpNo :=
  destruct (getOperand MI OpNo) as [f | [ | Reg | Imm | Expr]]; simpl;
  try destruct NDEBUG; simpl; try close_outcome.

Ltac split_expr Expr :=
  destruct Expr as [op l r | c | sym | op e | k sub]; simpl;
  try destruct (evaluateAsAbsolute _); simpl;
  try destruct (isPositionIndependent Ctx); simpl; try close_outcome.

Lemma getSImm13OpValue_outcome MI OpNo STI Fx :
  operand_outcome (getOperand MI OpNo) Fx (getSImm13OpValue' MI OpNo STI Fx).
Proof.
  open_method getSImm13OpValue. split_operand MI OpNo.
  all: split_expr Expr.
Qed.

(** The part of [operand_outcome] that is left when an encoder decides
    the outcome. *)
Lemma encoder_outcome MO Fx (r : Result Z) :
  (forall code, r = inr code -> 0 <= code < 32) ->
  operand_outcome MO Fx (r, Fx).
Proof.
  intros Hr. exists []. rewrite app_nil_r.
  split; [reflexivity|]. split; [simpl; lia|].
  split; [constructor|]. split; [congruence|].
  simpl. intros v Hv. apply small_in_unsigned. now apply Hr.
Qed.

Lemma getImm5OpValue_outcome MI OpNo STI Fx :
  operand_outcome (getOperand MI OpNo) Fx (getImm5OpValue' MI OpNo STI Fx).
Proof.
  assert (Henc : forall MO v, operand_outcome MO Fx (imm5OpEncoder v, Fx)).
  { intros MO v. apply encoder_outcome. intros code Hc.
    now apply (imm5_sound v code). }
  open_method getImm5OpValue. fold (operand_outcome).
  destruct (getOperand MI OpNo) as [f | [ | Reg | Imm | Expr]]; simpl;
    try apply Henc; try destruct NDEBUG; simpl; try close_outcome.
  all: destruct Expr as [op l r | c | sym | op e | k sub]; simpl;
    try apply Henc;
    try destruct (isPositionIndependent Ctx); simpl; close_outcome.
Qed.

Lemma getSImm5OpValue_outcome MI OpNo STI Fx :
  operand_outcome (getOperand MI OpNo) Fx (getSImm5OpValue' MI OpNo STI Fx).
Proof.
  assert (Henc : forall MO v, operand_outcome MO Fx (sImm5OpEncoder v, Fx)).
  { intros MO v. apply encoder_outcome. intros code Hc.
    now apply (simm5_sound v code). }
  open_method getSImm5OpValue. fold (operand_outcome).
  destruct (getOperand MI OpNo) as [f | [ | Reg | Imm | Expr]]; simpl;
    try apply Henc; try destruct NDEBUG; simpl; try close_outcome.
  all: destruct Expr as [op l r | c | sym | op e | k sub]; simpl;
    try apply Henc;
    try destruct (isPositionIndependent Ctx); simpl; close_outcome.
Qed.

Lemma getCallTargetOpValue_outcome MI OpNo STI Fx :
  operand_outcome (getOperand MI OpNo) Fx (getCallTargetOpValue' MI OpNo STI Fx).
Proof.
  open_method getCallTargetOpValue.
  destruct (getOperand MI OpNo) as [f | [ | Reg | Imm | Expr]]; simpl;
    try close_outcome.
  destruct (Opcode_eqb (getOpcode MI) TLS_CALL); simpl.
  - destruct NDEBUG; simpl; try close_outcome.
    destruct Expr as [op l r | c | sym | op e | k sub]; simpl;
      try close_outcome.
    destruct sub as [op l r | c | sym | op e | k' sub']; simpl;
      try close_outcome.
    destruct (String.eqb sym "__tls_get_addr"); simpl; close_outcome.
  - destruct Expr as [op l r | c | sym | op e | k sub]; simpl; close_outcome.
Qed.

Lemma getBranchTargetOpValue_outcome MI OpNo STI Fx :
  operand_outcome (getOperand MI OpNo) Fx
    (getBranchTargetOpValue' MI OpNo STI Fx).
Proof.
  open_method getBranchTargetOpValue.
  destruct (getOperand MI OpNo) as [f | [ | Reg | Imm | Expr]]; simpl;
    close_outcome.
Qed.

Lemma getBranchPredTargetOpValue_outcome MI OpNo STI Fx :
  operand_outcome (getOperand MI OpNo) Fx
    (getBranchPredTargetOpValue' MI OpNo STI Fx).
Proof.
  open_method getBranchPredTargetOpValue.
  destruct (getOperand MI OpNo) as [f | [ | Reg | Imm | Expr]]; simpl;
    close_outcome.
Qed.

Lemma getBranchOnRegTargetOpValue_outcome MI OpNo STI Fx :
  operand_outcome (getOperand MI OpNo) Fx
    (getBranchOnRegTargetOpValue' MI OpNo STI Fx).
Proof.
  open_method getBranchOnRegTargetOpValue.
  destruct (getOperand MI OpNo) as [f | [ | Reg | Imm | Expr]]; simpl;
    close_outcome.
Qed.

(** A property of outcomes, held by every operand-value method at every
    operand and every fixup vector. *)
Definition every_method
    (P : Result MCOperand -> list MCFixup -> Result Z * list MCFixup -> Prop)
  : Prop :=
  forall MI OpNo STI Fx,
    (forall MO, P (inr MO) Fx (getMachineOpValue' MI MO STI Fx))
    /\ P (getOperand MI OpNo) Fx (getSImm13OpValue' MI OpNo STI Fx)
    /\ P (getOperand MI OpNo) Fx (getImm5OpValue' MI OpNo STI Fx)
    /\ P (getOperand MI OpNo) Fx (getSImm5OpValue' MI OpNo STI Fx)
    /\ P (getOperand MI OpNo) Fx (getCallTargetOpValue' MI OpNo STI Fx)
    /\ P (getOperand MI OpNo) Fx (getBranchTargetOpValue' MI OpNo STI Fx)
    /\ P (getOperand MI OpNo) Fx (getBranchPredTargetOpValue' MI OpNo STI Fx)
    /\ P (getOperand MI OpNo) Fx (getBranchOnRegTargetOpValue' MI OpNo STI Fx).

Lemma every_method_outcome : every_method operand_outcome.
Proof.
  intros MI OpNo STI Fx.
  split; [intros MO; apply getMachineOpValue_outcome|].
  split; [apply getSImm13OpValue_outcome|].
  split; [apply getImm5OpValue_outcome|].
  split; [apply getSImm5OpValue_outcome|].
  split; [apply getCallTargetOpValue_outcome|].
  split; [apply getBranchTargetOpValue_outcome|].
  split; [apply getBranchPredTargetOpValue_outcome|].
  apply getBranchOnRegTargetOpValue_outcome.
Qed.

Lemma every_method_weaken
    (P : Result MCOperand -> list MCFixup -> Result Z * list MCFixup -> Prop) :
  (forall MO Fx out, operand_outcome MO Fx out -> P MO Fx out) ->
  every_method P.
Proof.
  intros HP MI OpNo STI Fx.
  destruct (every_method_outcome MI OpNo STI Fx)
    as (H0 & H1 & H2 & H3 & H4 & H5 & H6 & H7).
  repeat split; try intros MO; apply HP; auto.
Qed.

(** No operand-value method removes, reorders or rewrites a fixup that is
    already recorded, whether it returns or fails: the vector at exit is
    the vector at entry followed by at most two new fixups, each at offset
    0 and on the expression of the operand the method was asked about. *)
Theorem fixups_only_appended :
  every_method (fun MO Fx out =>
    exists new,
      snd out = Fx ++ new
      /\ (List.length new <= 2)%nat
      /\ Forall (fun F => getOffset F = 0
                          /\ MO = inr (MO_Expr (getValue F))) new).
Proof.
  apply every_method_weaken.
  intros MO Fx out (new & Hs & Hl & Hf & _). now exists new.
Qed.

(** "If the machine operand requires relocation, record the relocation
    and return zero": whenever a method leaves the fixup vector different
    from the one it was given, it returns 0. *)
Theorem relocated_operand_is_zero :
  every_method (fun MO Fx out => snd out <> Fx -> fst out = inr 0).
Proof.
  apply every_method_weaken.
  intros MO Fx out (new & Hs & _ & _ & Hz & _) Hne.
  apply Hz. intros ->. apply Hne. rewrite Hs. apply app_nil_r.
Qed.

(** A literal immediate and a constant expression of the same value are
    treated alike by the three immediate methods, and neither records a
    fixup: [getSImm13OpValue] returns the value in the [unsigned] return
    type, [getImm5OpValue] and [getSImm5OpValue] whatever their encoder
    returns, its failures included. *)
Theorem constant_expression_like_immediate MI OpNo STI v Fx :
  getOperand MI OpNo = inr (MO_Imm v)
  \/ getOperand MI OpNo = inr (MO_Expr (MCConstantExpr v)) ->
  getSImm13OpValue' MI OpNo STI Fx = (inr (CInt.to_unsigned v), Fx)
  /\ getImm5OpValue' MI OpNo STI Fx = (imm5OpEncoder v, Fx)
  /\ getSImm5OpValue' MI OpNo STI Fx = (sImm5OpEncoder v, Fx).
Proof.
  unfold getSImm13OpValue, getImm5OpValue, getSImm5OpValue, Emit.bind,
    Emit.lift, Emit.ret, assert.
  intros [-> | ->]; simpl; destruct NDEBUG; simpl; repeat split;
    try reflexivity;
    try (destruct (imm5OpEncoder v); reflexivity);
    destruct (sImm5OpEncoder v); reflexivity.
Qed.

(** A 5-bit value that [getImm5OpValue] or [getSImm5OpValue] returns for
    an immediate or a constant expression decodes, by the formula of its
    form, to that immediate. *)
Theorem imm5_operand_decodes MI OpNo STI v Fx :
  getOperand MI OpNo = inr (MO_Imm v)
  \/ getOperand MI OpNo = inr (MO_Expr (MCConstantExpr v)) ->
  (forall code Fx', getImm5OpValue' MI OpNo STI Fx = (inr code, Fx') ->
     Fx' = Fx /\ 0 <= code < 32 /\ spec_decode_imm5 code = v)
  /\ (forall code Fx', getSImm5OpValue' MI OpNo STI Fx = (inr code, Fx') ->
        Fx' = Fx /\ 0 <= code < 32 /\ spec_decode_simm5 code = v).
Proof.
  intros HMO.
  destruct (constant_expression_like_immediate MI OpNo STI v Fx HMO)
    as (_ & -> & ->).
  split; intros code Fx' Heq; inversion Heq; subst;
    (split; [reflexivity|]).
  - now apply imm5_sound.
  - now apply simm5_sound.
Qed.

(** [getSImm5OpValue] tags an expression that is not a constant as
    [getImm5OpValue] does: with the expression's own Sparc relocation
    kind when it carries one, else with got5 under position-independent
    code and with the plain 5 tag without it. *)
Theorem simm5_fixup_kind_selection MI OpNo STI Expr Fx :
  getOperand MI OpNo = inr (MO_Expr Expr) ->
  getKind Expr <> Constant ->
  getSImm5OpValue' MI OpNo STI Fx = getImm5OpValue' MI OpNo STI Fx
  /\ (forall k sub, Expr = SparcMCExpr k sub ->
        getSImm5OpValue' MI OpNo STI Fx
        = (inr 0, Fx ++ [MCFixup_create 0 Expr (getFixupKind k)]))
  /\ (getKind Expr <> Target ->
        getSImm5OpValue' MI OpNo STI Fx
        = (inr 0,
           Fx ++ [MCFixup_create 0 Expr
                    (if isPositionIndependent Ctx
                     then fixup_sparc_got5 else fixup_sparc_5)])).
Proof.
  intros HMO HnC.
  unfold getSImm5OpValue, getImm5OpValue, Emit.bind, Emit.lift, Emit.ret,
    Emit.push_back, assert.
  rewrite HMO. simpl.
  destruct Expr as [op l r | c | sym | op e | k' sub'];
    try (exfalso; apply HnC; reflexivity);
    destruct NDEBUG; simpl; (split; [reflexivity|]);
    (split; [intros k sub Hk; inversion Hk; subst; reflexivity|]);
    intros HnT; try (exfalso; apply HnT; reflexivity); reflexivity.
Qed.

(** [getBranchPredTargetOpValue] returns the register's encoding or the
    immediate in the [unsigned] return type with the fixups untouched,
    and on an expression appends one br19 fixup and returns 0. *)
Theorem branch_pred_target_value MI OpNo STI Fx :
  (forall Reg, getOperand MI OpNo = inr (MO_Reg Reg) ->
     getBranchPredTargetOpValue' MI OpNo STI Fx
     = (inr (getEncodingValue Ctx Reg), Fx))
  /\ (forall Imm, getOperand MI OpNo = inr (MO_Imm Imm) ->
        getBranchPredTargetOpValue' MI OpNo STI Fx
        = (inr (CInt.to_unsigned Imm), Fx))
  /\ (forall Expr, getOperand MI OpNo = inr (MO_Expr Expr) ->
        getBranchPredTargetOpValue' MI OpNo STI Fx
        = (inr 0, Fx ++ [MCFixup_create 0 Expr fixup_sparc_br19])).
Proof.
  unfold getBranchPredTargetOpValue, getMachineOpValue, Emit.bind, Emit.lift,
    Emit.ret, Emit.push_back.
  repeat split; intros x HMO; rewrite HMO; simpl; try reflexivity.
  now rewrite getEncodingValue_unsigned.
Qed.

(** For an opcode other than [TLS_CALL], [getCallTargetOpValue] records
    one fixup of the Sparc relocation kind of its target and returns 0;
    a target that is an expression of another class has no kind to give
    and the call is undefined. *)
Theorem call_target_fixup MI OpNo STI Expr Fx :
  getOpcode MI <> TLS_CALL ->
  getOperand MI OpNo = inr (MO_Expr Expr) ->
  (forall k sub, Expr = SparcMCExpr k sub ->
     getCallTargetOpValue' MI OpNo STI Fx
     = (inr 0, Fx ++ [MCFixup_create 0 Expr (getFixupKind k)]))
  /\ (getKind Expr <> Target ->
        exists what,
          getCallTargetOpValue' MI OpNo STI Fx = (inl (Undefined what), Fx)).
Proof.
  intros Hop HMO.
  unfold getCallTargetOpValue, Emit.bind, Emit.lift, Emit.ret,
    Emit.push_back, Emit.fail.
  rewrite HMO. simpl.
  assert (Hne : Opcode_eqb (getOpcode MI) TLS_CALL = false).
  { destruct (getOpcode MI); try reflexivity. now elim Hop. }
  rewrite Hne. split.
  - intros k sub ->. reflexivity.
  - intros HnT. destruct Expr; try (eexists; reflexivity).
    now elim HnT.
Qed.

(** [getMachineOpValue] on an expression that carries no Sparc relocation
    kind: the constant it folds to, in the [unsigned] return type and
    without a fixup, and the unreachable mark when it does not fold. *)
Theorem machine_op_value_plain_expression MI STI Expr Fx :
  getKind Expr <> Target ->
  (forall Res, evaluateAsAbsolute Expr = Some Res ->
     getMachineOpValue' MI (MO_Expr Expr) STI Fx
     = (inr (CInt.to_unsigned Res), Fx))
  /\ (evaluateAsAbsolute Expr = None ->
        getMachineOpValue' MI (MO_Expr Expr) STI Fx
        = (inl (Unreachable "Unhandled expression!"), Fx)).
Proof.
  intros HnT.
  unfold getMachineOpValue, Emit.bind, Emit.lift, Emit.ret, Emit.fail, assert.
  simpl.
  assert (Hd : dyn_cast_SparcMCExpr Expr = None)
    by (destruct Expr; try reflexivity; now elim HnT).
  rewrite Hd.
  split; [intros Res Hev | intros Hev]; rewrite Hev;
    destruct NDEBUG; reflexivity.
Qed.

End EmitterFamily.

(** ** Builds with and without assertions *)

Section BuildModes.

Variable Ctx : MCContext.
Variable getFixupKind : VariantKind -> MCFixupKind.
Variable evaluateAsAbsolute : MCExpr -> option Z.

(** What [m], a method as a function of [NDEBUG], returns in a build
    with assertions it returns in a build without. *)
Definition returns_carry_over (m : bool -> Emit.t Z) (Fx : list MCFixup)
  : Prop :=
  forall v Fx', m false Fx = (inr v, Fx') -> m true Fx = (inr v, Fx').

(** The assertions of the operand-value methods take no part in a result:
    a call that returns in a build with assertions returns the same value
    and leaves the same fixups in an [NDEBUG] build. *)
Theorem builds_agree_on_returns MI OpNo STI Fx :
  (forall MO,
     returns_carry_over
       (fun nd => getMachineOpValue nd Ctx getFixupKind
                    evaluateAsAbsolute MI MO STI) Fx)
  /\ returns_carry_over
       (fun nd => getSImm13OpValue nd Ctx getFixupKind MI OpNo STI) Fx
  /\ returns_carry_over
       (fun nd => getImm5OpValue nd Ctx getFixupKind MI OpNo STI) Fx
  /\ returns_carry_over
       (fun nd => getSImm5OpValue nd Ctx getFixupKind MI OpNo STI) Fx
  /\ returns_carry_over
       (fun nd => getCallTargetOpValue nd getFixupKind MI OpNo STI) Fx
  /\ returns_carry_over
       (fun nd => getBranchTargetOpValue nd Ctx getFixupKind
                    evaluateAsAbsolute MI OpNo STI) Fx
  /\ returns_carry_over
       (fun nd => getBranchPredTargetOpValue nd Ctx getFixupKind
                    evaluateAsAbsolute MI OpNo STI) Fx
  /\ returns_carry_over
       (fun nd => getBranchOnRegTargetOpValue nd Ctx getFixupKind
                    evaluateAsAbsolute MI OpNo STI) Fx.
Proof.
  unfold returns_carry_over, getMachineOpValue, getSImm13OpValue,
    getImm5OpValue, getSImm5OpValue, getBranchTargetOpValue,
    getBranchPredTargetOpValue, getBranchOnRegTargetOpValue,
    getCallTargetOpValue, getMachineOpValue,
    Emit.bind, Emit.lift, Emit.ret, Emit.push_back, Emit.fail, assert.
  split; [intros [ | Reg | Imm | Expr] v Fx'; simpl;
          intros H; first [exact H | discriminate H]|].
  destruct (getOperand MI OpNo) as [f | [ | Reg | Imm | Expr]]; simpl;
    repeat match goal with |- _ /\ _ => split end;
    intros v Fx' H; try exact H; try discriminate H.
  destruct (Opcode_eqb (getOpcode MI) TLS_CALL); simpl in *; [|exact H].
  destruct (dyn_cast_SparcMCExpr Expr) as [[k sub]|]; simpl in *;
    [|discriminate H].
  destruct (getKind sub); simpl in *; try discriminate H.
  destruct (is_SymbolRef_named sub "__tls_get_addr"); simpl in *;
    [exact H | discriminate H].
Qed.

(** The callee check of [TLS_CALL]: a build with assertions returns 0,
    with the fixups untouched, exactly for a target that is a Sparc
    expression around the symbol [__tls_get_addr] and stops at an
    assertion for any other expression; an [NDEBUG] build returns 0 for
    every expression. *)
Theorem tls_call_callee_checked MI OpNo STI Expr Fx :
  getOpcode MI = TLS_CALL ->
  getOperand MI OpNo = inr (MO_Expr Expr) ->
  getCallTargetOpValue true getFixupKind MI OpNo STI Fx = (inr 0, Fx)
  /\ ((exists k, Expr = SparcMCExpr k (MCSymbolRefExpr "__tls_get_addr")) ->
        getCallTargetOpValue false getFixupKind MI OpNo STI Fx = (inr 0, Fx))
  /\ (~ (exists k, Expr = SparcMCExpr k (MCSymbolRefExpr "__tls_get_addr")) ->
        exists msg,
          getCallTargetOpValue false getFixupKind MI OpNo STI Fx
          = (inl (AssertionFailed msg), Fx)).
Proof.
  intros Hop HMO.
  unfold getCallTargetOpValue, Emit.bind, Emit.lift, Emit.ret, assert.
  rewrite HMO, Hop. simpl. split; [reflexivity|]. split.
  - intros (k & ->). reflexivity.
  - intros Hno.
    destruct Expr as [op l r | c | sym | op e | k sub]; simpl;
      try (eexists; reflexivity).
    destruct sub as [op l r | c | sym | op e | k' sub']; simpl;
      try (eexists; reflexivity).
    destruct (String.eqb_spec sym "__tls_get_addr") as [-> | Hne]; simpl;
      [|eexists; reflexivity].
    exfalso. apply Hno. now exists k.
Qed.

End BuildModes.

(** ** The bytes and the fixups of encodeInstruction *)

(** The [unsigned] that a sequence of bytes spells, first byte most
    significant. *)
Definition from_big_endian (bytes : list Z) : Z :=
  fold_left (fun acc b => acc * 256 + b) bytes 0.

Lemma byte_of_word (w k : Z) :
  0 <= k -> Z.land (Z.shiftr w (8 * k)) 255 = (w / 2 ^ (8 * k)) mod 256.
Proof.
  intros Hk. rewrite Z.shiftr_div_pow2 by lia.
  change 255 with (Z.ones 8). rewrite Z.land_ones by lia. reflexivity.
Qed.

Lemma word_bytes (w : Z) :
  0 <= w < 4294967296 ->
  (((w / 16777216) mod 256 * 256 + (w / 65536) mod 256) * 256
   + (w / 256) mod 256) * 256 + w mod 256 = w.
Proof.
  intros HB.
  replace (w / 16777216) with (w / 256 / 256 / 256)
    by (rewrite !Z.div_div by lia; reflexivity).
  replace (w / 65536) with (w / 256 / 256)
    by (rewrite Z.div_div by lia; reflexivity).
  pose proof (Z.div_mod w 256 ltac:(lia)) as E0.
  pose proof (Z.div_mod (w / 256) 256 ltac:(lia)) as E1.
  pose proof (Z.div_mod (w / 256 / 256) 256 ltac:(lia)) as E2.
  assert (H3 : 0 <= w / 256 / 256 / 256 < 256).
  { split; [repeat apply Z.div_pos; lia|].
    repeat (apply Z.div_lt_upper_bound; [lia|]). lia. }
  rewrite (Z.mod_small _ _ H3). lia.
Qed.

(** [support::endian::write] loses nothing of a 32-bit word: it writes
    four bytes, each in [0, 255], that spell the word most significant
    byte first in big-endian order, and the same bytes reversed in
    little-endian order. *)
Theorem endian_write_roundtrip (Bits : Z) :
  0 <= Bits < 2 ^ 32 ->
  from_big_endian (endian_write Bits big) = Bits
  /\ endian_write Bits little = rev (endian_write Bits big)
  /\ List.length (endian_write Bits big) = 4%nat
  /\ Forall (fun b => 0 <= b < 256) (endian_write Bits big).
Proof.
  intros HB. change (2 ^ 32) with 4294967296 in HB.
  unfold endian_write, from_big_endian.
  rewrite !byte_of_word by lia.
  change (2 ^ (8 * 0)) with 1. change (2 ^ (8 * 1)) with 256.
  change (2 ^ (8 * 2)) with 65536. change (2 ^ (8 * 3)) with 16777216.
  rewrite Z.div_1_r.
  split; [|split; [reflexivity|split; [reflexivity|]]].
  - cbn [fold_left]. rewrite Z.mul_0_l, Z.add_0_l. now apply word_bytes.
  - repeat constructor; apply Z.mod_pos_bound; lia.
Qed.

Lemma endian_write_roundtrip_witness :
  0 <= 1073741824 < 2 ^ 32
  /\ from_big_endian (endian_write 1073741824 big) = 1073741824
  /\ endian_write 1073741824 little = rev (endian_write 1073741824 big).
Proof.
  assert (HB : 0 <= 1073741824 < 2 ^ 32) by (split; [lia | reflexivity]).
  destruct (endian_write_roundtrip 1073741824 HB) as (H1 & H2 & _).
  split; [exact HB|]. split; [exact H1 | exact H2].
Defined.

Section EncodeProperties.

Variable NDEBUG : bool.
Variable Ctx : MCContext.
Variable getFixupKind : VariantKind -> MCFixupKind.
Variable evaluateAsAbsolute : MCExpr -> option Z.
Variable computeAvailableFeatures : FeatureBitset -> FeatureBitset.
Variable verifyInstructionPredicates : MCInst -> FeatureBitset -> Result unit.
Variable getBinaryCodeForInstr : MCInst -> MCSubtargetInfo -> Emit.t Z.

Local Abbreviation getMachineOpValue' :=
  (getMachineOpValue NDEBUG Ctx getFixupKind evaluateAsAbsolute).
Local Abbreviation encodeInstruction' :=
  (encodeInstruction NDEBUG Ctx getFixupKind evaluateAsAbsolute
     computeAvailableFeatures verifyInstructionPredicates
     getBinaryCodeForInstr).
Local Abbreviation verified MI STI :=
  (verifyInstructionPredicates MI
     (computeAvailableFeatures (getFeatureBits STI))).

(** The operand index that [encodeInstruction] selects. *)
Definition tls_operand_index (Op : Opcode) : nat :=
  match Op with
  | TLS_CALL => 1
  | TLS_ADDrr | TLS_ADDXrr | TLS_LDrr | TLS_LDXrr => 3
  | SP_other _ => 0
  end.

(** [encodeInstruction] writes a whole word or nothing.  When the
    predicates hold and the word is computed it appends exactly the four
    bytes of the word's low 32 bits, in the byte order of the target, and
    it has done so even when the TLS operand then stops the call; when
    the predicates fail or the word cannot be computed the stream is left
    as it was. *)
Theorem encode_writes_whole_word MI STI s :
  (forall code Fx1,
     verified MI STI = inr tt ->
     getBinaryCodeForInstr MI STI (Fixups s) = (inr code, Fx1) ->
     exists bytes,
       OS (snd (encodeInstruction' MI STI s)) = OS s ++ bytes
       /\ List.length bytes = 4%nat
       /\ Forall (fun b => 0 <= b < 256) bytes
       /\ from_big_endian (if isLittleEndian Ctx then rev bytes else bytes)
          = CInt.to_unsigned code)
  /\ (forall f,
        verified MI STI = inl f
        \/ (verified MI STI = inr tt
            /\ fst (getBinaryCodeForInstr MI STI (Fixups s)) = inl f) ->
        fst (encodeInstruction' MI STI s) = inl f
        /\ OS (snd (encodeInstruction' MI STI s)) = OS s).
Proof.
  unfold encodeInstruction. split.
  - intros code Fx1 Hv Hb. rewrite Hv, Hb.
    pose proof (endian_write_roundtrip _ (to_unsigned_range code))
      as (Hspell & Hrev & Hlen & Hrange).
    exists (endian_write (CInt.to_unsigned code)
              (if isLittleEndian Ctx then little else big)).
    split.
    + destruct (negb _); [|reflexivity].
      match goal with
      | |- context [ Emit.bind ?m ?k Fx1 ] =>
          destruct (Emit.bind m k Fx1) as [[f | u] Fx2]
      end; reflexivity.
    + destruct (isLittleEndian Ctx).
      * rewrite Hrev, length_rev, rev_involutive. repeat split; try assumption.
        now apply Forall_rev.
      * repeat split; assumption.
  - intros f [Hv | [Hv Hb]]; rewrite Hv; [now split|].
    destruct (getBinaryCodeForInstr MI STI (Fixups s)) as [[g | c] Fx1];
      simpl in Hb; [inversion Hb; subst; now split | discriminate].
Qed.

(** The step of [encodeInstruction] on the TLS operand appends at most
    the one fixup that [getMachineOpValue] records. *)
Lemma tls_step_fixups MI STI (n : nat) Fx1 :
  exists new,
    snd ((MO <- Emit.lift (getOperand MI n) ;;
          op <- getMachineOpValue' MI MO STI ;;
          Emit.lift (assert NDEBUG (op =? 0) "Unexpected operand value!"))
           Fx1) = Fx1 ++ new
    /\ (List.length new <= 1)%nat
    /\ Forall (fun F =>
                 getOffset F = 0
                 /\ getOperand MI n = inr (MO_Expr (getValue F))
                 /\ exists k sub,
                      getValue F = SparcMCExpr k sub
                      /\ getFixupKindOf F = getFixupKind k) new.
Proof.
  unfold getMachineOpValue, Emit.bind, Emit.lift, Emit.ret, Emit.push_back,
    Emit.fail, assert.
  assert (Hnil : forall l : list MCFixup,
            l = l ++ [] /\ (List.length (@nil MCFixup) <= 1)%nat
            /\ Forall (fun F =>
                 getOffset F = 0
                 /\ getOperand MI n = inr (MO_Expr (getValue F))
                 /\ exists k sub,
                      getValue F = SparcMCExpr k sub
                      /\ getFixupKindOf F = getFixupKind k) [])
    by (intros l; rewrite app_nil_r; repeat split; [simpl; lia | constructor]).
  destruct (getOperand MI n) as [f | [ | Reg | Imm | Expr]]; simpl;
    destruct NDEBUG; simpl;
    try (destruct Expr as [op l r | c | sym | op e | k sub]; simpl;
         try destruct (evaluateAsAbsolute _); simpl);
    try destruct (_ =? 0); simpl;
    first
      [ exists []; apply Hnil
      | eexists [_]; split; [reflexivity|]; split; [simpl; lia|];
        repeat constructor; eexists; eexists; split; reflexivity ].
Qed.

(** The fixups of one [encodeInstruction]: a call that fails its
    predicates leaves the whole state as it was; otherwise the vector is
    the one the instruction word left, followed for the five TLS opcodes
    by at most one fixup, at offset 0, on the Sparc expression that is
    the TLS operand and of that expression's relocation kind, and by
    nothing for any other opcode. *)
Theorem encode_fixups MI STI s :
  (forall f, verified MI STI = inl f -> encodeInstruction' MI STI s = (inl f, s))
  /\ (verified MI STI = inr tt ->
        exists new,
          Fixups (snd (encodeInstruction' MI STI s))
          = snd (getBinaryCodeForInstr MI STI (Fixups s)) ++ new
          /\ (List.length new <= 1)%nat
          /\ (tls_operand_index (getOpcode MI) = 0%nat -> new = [])
          /\ Forall (fun F =>
                       getOffset F = 0
                       /\ getOperand MI (tls_operand_index (getOpcode MI))
                          = inr (MO_Expr (getValue F))
                       /\ exists k sub,
                            getValue F = SparcMCExpr k sub
                            /\ getFixupKindOf F = getFixupKind k) new).
Proof.
  unfold encodeInstruction. split; [intros f ->; reflexivity|].
  intros ->.
  destruct (getBinaryCodeForInstr MI STI (Fixups s)) as [[g | code] Fx1].
  - exists []. simpl. rewrite app_nil_r.
    repeat split; [lia | constructor].
  - change (match getOpcode MI with
            | TLS_CALL => 1%nat
            | TLS_ADDrr | TLS_ADDXrr | TLS_LDrr | TLS_LDXrr => 3%nat
            | SP_other _ => 0%nat
            end) with (tls_operand_index (getOpcode MI)).
    destruct (Nat.eqb_spec (tls_operand_index (getOpcode MI)) 0) as [Hz | Hnz];
      simpl negb; cbv iota.
    + exists []. simpl. rewrite app_nil_r.
      repeat split; [lia | constructor].
    + destruct (tls_step_fixups MI STI (tls_operand_index (getOpcode MI)) Fx1)
        as (new & Hs & Hl & Hf).
      exists new.
      match goal with
      | |- context [ Emit.bind ?m ?k Fx1 ] =>
          destruct (Emit.bind m k Fx1) as [[f | u] Fx2]
      end; simpl in *; subst Fx2;
        (split; [reflexivity|]); (split; [exact Hl|]);
        (split; [intros Hz; now elim Hnz | exact Hf]).
Qed.

End EncodeProperties.

Section EncodeBuilds.

Variable Ctx : MCContext.
Variable getFixupKind : VariantKind -> MCFixupKind.
Variable evaluateAsAbsolute : MCExpr -> option Z.
Variable computeAvailableFeatures : FeatureBitset -> FeatureBitset.
Variable verifyInstructionPredicates : MCInst -> FeatureBitset -> Result unit.
Variable getBinaryCodeForInstr : MCInst -> MCSubtargetInfo -> Emit.t Z.

Local Abbreviation encode_with NDEBUG :=
  (encodeInstruction NDEBUG Ctx getFixupKind evaluateAsAbsolute
     computeAvailableFeatures verifyInstructionPredicates
     getBinaryCodeForInstr).

(** In a build with assertions, an [encodeInstruction] of one of the five
    TLS opcodes that returns has had its TLS operand resolved to exactly 0
    by [getMachineOpValue], and the fixups it leaves are those of that
    resolution. *)
Theorem tls_operand_asserted_zero MI STI s s' :
  tls_operand_index (getOpcode MI) <> 0%nat ->
  encode_with false MI STI s = (inr tt, s') ->
  exists MO code Fx1,
    getOperand MI (tls_operand_index (getOpcode MI)) = inr MO
    /\ getBinaryCodeForInstr MI STI (Fixups s) = (inr code, Fx1)
    /\ getMachineOpValue false Ctx getFixupKind evaluateAsAbsolute
         MI MO STI Fx1 = (inr 0, Fixups s')
    /\ MCNumEmitted s' = (MCNumEmitted s + 1)%N.
Proof.
  intros Hnz. unfold encodeInstruction.
  destruct (verifyInstructionPredicates MI _) as [f | []]; [discriminate|].
  destruct (getBinaryCodeForInstr MI STI (Fixups s)) as [[g | code] Fx1];
    [discriminate|].
  change (match getOpcode MI with
          | TLS_CALL => 1%nat
          | TLS_ADDrr | TLS_ADDXrr | TLS_LDrr | TLS_LDXrr => 3%nat
          | SP_other _ => 0%nat
          end) with (tls_operand_index (getOpcode MI)).
  apply Nat.eqb_neq in Hnz. rewrite Hnz. simpl negb. cbv iota.
  unfold Emit.bind at 1. unfold Emit.lift at 1.
  destruct (getOperand MI (tls_operand_index (getOpcode MI))) as [f | MO];
    [discriminate|].
  unfold Emit.bind, Emit.lift, assert.
  destruct (getMachineOpValue false Ctx getFixupKind evaluateAsAbsolute
              MI MO STI Fx1) as [[f | op] Fx2] eqn:Hval; [discriminate|].
  destruct (Z.eqb_spec op 0) as [-> | Hop]; [|discriminate].
  intros H. inversion H. subst. exists MO, code, Fx1. simpl.
  split; [reflexivity|]. split; [reflexivity|]. split; [exact Hval | reflexivity].
Qed.

(** A TLS operand that is an immediate is never relocated.  An [NDEBUG]
    build encodes the instruction all the same, whatever the immediate,
    and counts it; a build with assertions stops at a non-zero immediate
    after the word is in the stream and before the counter moves. *)
Theorem tls_immediate_operand_unrelocated MI STI s Imm code Fx1 :
  tls_operand_index (getOpcode MI) <> 0%nat ->
  getOperand MI (tls_operand_index (getOpcode MI)) = inr (MO_Imm Imm) ->
  verifyInstructionPredicates MI
    (computeAvailableFeatures (getFeatureBits STI)) = inr tt ->
  getBinaryCodeForInstr MI STI (Fixups s) = (inr code, Fx1) ->
  let OS1 :=
    OS s ++ endian_write (CInt.to_unsigned code)
              (if isLittleEndian Ctx then little else big) in
  encode_with true MI STI s
  = (inr tt, mkState OS1 Fx1 (MCNumEmitted s + 1)%N)
  /\ (CInt.to_unsigned Imm <> 0 ->
        encode_with false MI STI s
        = (inl (AssertionFailed "Unexpected operand value!"),
           mkState OS1 Fx1 (MCNumEmitted s))).
Proof.
  intros Hnz HMO Hv Hb OS1. unfold encodeInstruction. rewrite Hv, Hb.
  change (match getOpcode MI with
          | TLS_CALL => 1%nat
          | TLS_ADDrr | TLS_ADDXrr | TLS_LDrr | TLS_LDXrr => 3%nat
          | SP_other _ => 0%nat
          end) with (tls_operand_index (getOpcode MI)).
  apply Nat.eqb_neq in Hnz. rewrite Hnz. simpl negb. cbv iota.
  unfold Emit.bind, Emit.lift, getMachineOpValue, Emit.ret, assert.
  rewrite HMO. simpl. split; [reflexivity|].
  intros Hne. apply Z.eqb_neq in Hne. rewrite Hne. reflexivity.
Qed.

End EncodeBuilds.

(** * The version mapping *)

Module DarwinFacts.
Import Darwin.

Section Map.

Context {VersionTuple : Type} {VT : VersionTupleOps VersionTuple}.

(** [VersionTuple(Major)] has no minor number. *)
Definition MajorOnlyHasNoMinor : Prop := forall M, getMinor (ofMajor M) = None.

(** [operator<] is a strict order. *)
Definition LtStrict : Prop :=
  (forall a, ltb a a = false)
  /\ (forall a b c, ltb a b = true -> ltb b c = true -> ltb a c = true).

(** [operator==] holds of a version and itself. *)
Definition EqRefl : Prop := forall a, eqb a a = true.

Variable R : RelatedTargetVersionMapping VersionTuple.

(** What [map] answers for a key of the key range. *)
Definition in_range_answer (Key : VersionTuple) : option VersionTuple :=
  find (normalize Key) (Mapping R).

(** What [map] answers for a key that has no minor number. *)
Definition major_only_answer (Key MinimumValue : VersionTuple)
    (MaximumValue : option VersionTuple) : option VersionTuple :=
  if ltb Key (MinimumKeyVersion R) then Some MinimumValue
  else if ltb (MaximumKeyVersion R) Key then MaximumValue
  else in_range_answer Key.

Lemma map_rec_major_only fuel M MinimumValue MaximumValue :
  MajorOnlyHasNoMinor ->
  map_rec (S fuel) R (ofMajor M) MinimumValue MaximumValue
  = Some (major_only_answer (ofMajor M) MinimumValue MaximumValue).
Proof.
  intros Hm. unfold major_only_answer, in_range_answer. simpl.
  destruct (ltb (ofMajor M) (MinimumKeyVersion R)); [reflexivity|].
  destruct (ltb (MaximumKeyVersion R) (ofMajor M)); [reflexivity|].
  destruct (find _ _); [reflexivity|]. now rewrite Hm.
Qed.

(** The recursion of [map] is entered at most once: with room for two
    calls it answers, and more room changes nothing. *)
Theorem map_recursion_depth Key MinimumValue MaximumValue fuel :
  MajorOnlyHasNoMinor ->
  (2 <= fuel)%nat ->
  exists answer,
    map_rec 2 R Key MinimumValue MaximumValue = Some answer
    /\ map_rec fuel R Key MinimumValue MaximumValue = Some answer.
Proof.
  intros Hm Hfuel.
  destruct fuel as [|[|fuel]]; try lia.
  cbn [map_rec].
  destruct (ltb Key (MinimumKeyVersion R)); [eexists; split; reflexivity|].
  destruct (ltb (MaximumKeyVersion R) Key); [eexists; split; reflexivity|].
  destruct (find _ _); [eexists; split; reflexivity|].
  destruct (getMinor Key); [|eexists; split; reflexivity].
  pose proof (map_rec_major_only fuel (getMajor Key) MinimumValue
                MaximumValue Hm) as Hdeep.
  pose proof (map_rec_major_only 0 (getMajor Key) MinimumValue
                MaximumValue Hm) as Hshallow.
  cbn [map_rec] in Hdeep, Hshallow. rewrite Hdeep, Hshallow.
  eexists; split; reflexivity.
Qed.

(** A key of the key range that has a minor number and no entry is
    answered as its major number alone is, and so with the checks of the
    range run again: with [MinimumValue] when the major number alone
    falls below the smallest key, with the entry of the major number when
    there is one, with nothing otherwise. *)
Theorem map_major_fallback Key MinimumValue MaximumValue fuel m :
  MajorOnlyHasNoMinor ->
  (2 <= fuel)%nat ->
  ltb Key (MinimumKeyVersion R) = false ->
  ltb (MaximumKeyVersion R) Key = false ->
  find (normalize Key) (Mapping R) = None ->
  getMinor Key = Some m ->
  map_rec fuel R Key MinimumValue MaximumValue
  = Some (major_only_answer (ofMajor (getMajor Key))
            MinimumValue MaximumValue).
Proof.
  intros Hm Hfuel Hlo Hhi Hfind Hminor.
  destruct fuel as [|[|fuel]]; try lia.
  change (map_rec (S (S fuel)) R Key MinimumValue MaximumValue)
    with (if ltb Key (MinimumKeyVersion R) then Some (Some MinimumValue)
          else if ltb (MaximumKeyVersion R) Key then Some MaximumValue
          else match find (normalize Key) (Mapping R) with
               | Some V => Some (Some V)
               | None =>
                   match getMinor Key with
                   | Some _ =>
                       map_rec (S fuel) R (ofMajor (getMajor Key))
                         MinimumValue MaximumValue
                   | None => Some None
                   end
               end).
  rewrite Hlo, Hhi, Hfind, Hminor. now apply map_rec_major_only.
Qed.

Lemma find_In Key (M : DenseMap VersionTuple) V :
  find Key M = Some V -> exists K, In (K, V) M.
Proof.
  induction M as [|[K V'] M IH]; simpl; [discriminate|].
  destruct (eqb K Key).
  - intros H. inversion H. subst. exists K. now left.
  - intros H. destruct (IH H) as (K' & HIn). exists K'. now right.
Qed.

(** [map] makes up no version: what it answers is [MinimumValue], the
    [MaximumValue] it was given, or the value of an entry of the
    mapping. *)
Theorem map_answers_from_table Key MinimumValue MaximumValue fuel V :
  map_rec fuel R Key MinimumValue MaximumValue = Some (Some V) ->
  V = MinimumValue
  \/ MaximumValue = Some V
  \/ exists K, In (K, V) (Mapping R).
Proof.
  revert Key. induction fuel as [|fuel IH]; intros Key; [discriminate|].
  cbn [map_rec].
  destruct (ltb Key (MinimumKeyVersion R));
    [intros H; inversion H; now left|].
  destruct (ltb (MaximumKeyVersion R) Key);
    [intros H; inversion H; right; now left|].
  destruct (find (normalize Key) (Mapping R)) as [V'|] eqn:Hfind.
  - intros H. inversion H. subst. right; right. now apply find_In in Hfind.
  - destruct (getMinor Key); [apply IH | discriminate].
Qed.

End Map.

Section Parse.

Context {VersionTuple : Type} {VT : VersionTupleOps VersionTuple}.

(** A member with a string value whose name or value is no version. *)
Definition bad_member (Obj : JObjectT) : Prop :=
  exists K Val,
    In (K, JString Val) Obj /\ (tryParse K = None \/ tryParse Val = None).

(** No member has a string value. *)
Definition no_strings (Obj : JObjectT) : Prop :=
  forall K V, In (K, V) Obj -> getAsString V = None.

Lemma bad_member_cons K V Obj :
  bad_member ((K, V) :: Obj)
  <-> (exists Val, V = JString Val
                   /\ (tryParse K = None \/ tryParse Val = None))
      \/ bad_member Obj.
Proof.
  unfold bad_member. split.
  - intros (K' & Val & [Heq | HIn] & Hb).
    + inversion Heq; subst. left. now exists Val.
    + right. now exists K', Val.
  - intros [(Val & -> & Hb) | (K' & Val & HIn & Hb)].
    + exists K, Val. split; [now left | exact Hb].
    + exists K', Val. split; [now right | exact Hb].
Qed.

Lemma no_strings_cons K V Obj :
  no_strings ((K, V) :: Obj) <-> getAsString V = None /\ no_strings Obj.
Proof.
  unfold no_strings. split.
  - intros H. split; [apply (H K); now left|].
    intros K' V' HIn. apply (H K'). now right.
  - intros [HV H] K' V' [Heq | HIn]; [now inversion Heq; subst | now apply (H K')].
Qed.

(** One turn of the loop on a member whose name and value parse. *)
Definition turn (KeyVersion ValueVersion : VersionTuple)
    (st : ParseState VersionTuple) : ParseState VersionTuple :=
  mkParseState
    (if ltb KeyVersion (Min_ st) then KeyVersion else Min_ st)
    (if ltb (Max_ st) KeyVersion then KeyVersion else Max_ st)
    (if ltb ValueVersion (MinValue_ st) then ValueVersion else MinValue_ st)
    (assign (normalize KeyVersion) ValueVersion (Mapping_ st)).

Lemma loop_cons K V Obj st :
  parseJSON_loop ((K, V) :: Obj) st
  = match V with
    | JString Val =>
        match tryParse K, tryParse Val with
        | Some k, Some v => parseJSON_loop Obj (turn k v st)
        | _, _ => None
        end
    | _ => parseJSON_loop Obj st
    end.
Proof. destruct V; reflexivity. Qed.

Lemma loop_app pre rest st :
  parseJSON_loop (pre ++ rest) st
  = match parseJSON_loop pre st with
    | Some st1 => parseJSON_loop rest st1
    | None => None
    end.
Proof.
  revert st. induction pre as [|[K V] pre IH]; intros st; [reflexivity|].
  rewrite <- app_comm_cons, !loop_cons.
  destruct V; try apply IH.
  destruct (tryParse K); [|reflexivity].
  destruct (tryParse s); [apply IH | reflexivity].
Qed.

Lemma loop_None Obj st : parseJSON_loop Obj st = None <-> bad_member Obj.
Proof.
  revert st. induction Obj as [|[K V] Obj IH]; intros st.
  - simpl. split; [discriminate | intros (K & Val & [] & _)].
  - rewrite loop_cons, bad_member_cons.
    destruct V as [ | b | n | Val | l | o];
      try (rewrite IH; split;
           [intros H; now right | intros [(Val & Heq & _) | H];
                                  [discriminate Heq | exact H]]).
    destruct (tryParse K) as [k|] eqn:EK;
      [destruct (tryParse Val) as [v|] eqn:EV|].
    + rewrite IH. split; [intros H; now right|].
      intros [(Val' & Heq & Hb) | H]; [|exact H].
      inversion Heq; subst. destruct Hb; congruence.
    + split; [intros _ | reflexivity].
      left. exists Val. split; [reflexivity | now right].
    + split; [intros _ | reflexivity].
      left. exists Val. split; [reflexivity | now left].
Qed.

Lemma loop_mapping_empty Obj st st' :
  parseJSON_loop Obj st = Some st' ->
  (Mapping_ st' = [] <-> Mapping_ st = [] /\ no_strings Obj).
Proof.
  revert st. induction Obj as [|[K V] Obj IH]; intros st.
  - simpl. intros H. inversion H. subst.
    split; [intros E; split; [exact E | intros K V []] | now intros [E _]].
  - rewrite loop_cons, no_strings_cons.
    destruct V as [ | b | n | Val | l | o];
      try (intros H; rewrite (IH _ H); simpl; tauto).
    destruct (tryParse K) as [k|]; [|discriminate].
    destruct (tryParse Val) as [v|]; [|discriminate].
    intros H. rewrite (IH _ H). simpl. unfold assign.
    split; [intros [E _]; discriminate E | intros (_ & E & _); discriminate E].
Qed.

(** [parseJSON] gives no mapping in two cases only: a member with a
    string value has a name or a value that is no version, or no member
    has a string value at all, as in an empty object. *)
Theorem parseJSON_fails_iff Obj MaximumDeploymentTarget :
  parseJSON Obj MaximumDeploymentTarget = None
  <-> bad_member Obj \/ no_strings Obj.
Proof.
  unfold parseJSON.
  destruct (parseJSON_loop Obj _) as [st'|] eqn:Hloop.
  - pose proof (loop_mapping_empty _ _ _ Hloop) as Hempty. simpl in Hempty.
    assert (Hok : ~ bad_member Obj).
    { intros Hbad. rewrite (proj2 (loop_None Obj _) Hbad) in Hloop.
      discriminate. }
    destruct (Mapping_ st') as [|e M]; simpl.
    + split; [intros _; right; now apply Hempty | reflexivity].
    + split; [discriminate|].
      intros [Hbad | Hno]; [contradiction|].
      assert (E : e :: M = []) by now apply Hempty. discriminate E.
  - split; [intros _ | reflexivity]. left.
    exact (proj1 (loop_None Obj _) Hloop).
Qed.

Lemma min_turn k m x :
  LtStrict -> ltb x (if ltb k m then k else m) = true -> ltb x m = true.
Proof.
  intros [_ Htrans]. destruct (ltb k m) eqn:E; [|trivial].
  intros H. now apply (Htrans x k m).
Qed.

Lemma min_turn_self k m :
  LtStrict -> ltb k (if ltb k m then k else m) = false.
Proof. intros [Hirr _]. destruct (ltb k m) eqn:E; [apply Hirr | exact E]. Qed.

Lemma max_turn k m x :
  LtStrict -> ltb (if ltb m k then k else m) x = true -> ltb m x = true.
Proof.
  intros [_ Htrans]. destruct (ltb m k) eqn:E; [|trivial].
  intros H. now apply (Htrans m k x).
Qed.

Lemma max_turn_self k m :
  LtStrict -> ltb (if ltb m k then k else m) k = false.
Proof. intros [Hirr _]. destruct (ltb m k) eqn:E; [apply Hirr | exact E]. Qed.

(** The loop only lowers [Min] and [MinValue] and only raises [Max], and
    leaves them as bounds of what it has read. *)
Lemma loop_bounds Obj st st' :
  LtStrict ->
  parseJSON_loop Obj st = Some st' ->
  (forall x, ltb x (Min_ st') = true -> ltb x (Min_ st) = true)
  /\ (forall x, ltb (Max_ st') x = true -> ltb (Max_ st) x = true)
  /\ (forall x, ltb x (MinValue_ st') = true -> ltb x (MinValue_ st) = true)
  /\ (forall K Val k v,
        In (K, JString Val) Obj ->
        tryParse K = Some k -> tryParse Val = Some v ->
        ltb k (Min_ st') = false
        /\ ltb (Max_ st') k = false
        /\ ltb v (MinValue_ st') = false).
Proof.
  intros Hlt. revert st. induction Obj as [|[K V] Obj IH]; intros st.
  - simpl. intros H. inversion H. subst. repeat split; trivial; contradiction.
  - rewrite loop_cons.
    assert (Hskip : (forall Val, V <> JString Val) ->
              parseJSON_loop Obj st = Some st' ->
              (forall x, ltb x (Min_ st') = true -> ltb x (Min_ st) = true)
              /\ (forall x, ltb (Max_ st') x = true -> ltb (Max_ st) x = true)
              /\ (forall x, ltb x (MinValue_ st') = true ->
                            ltb x (MinValue_ st) = true)
              /\ (forall K' Val k v,
                    In (K', JString Val) ((K, V) :: Obj) ->
                    tryParse K' = Some k -> tryParse Val = Some v ->
                    ltb k (Min_ st') = false
                    /\ ltb (Max_ st') k = false
                    /\ ltb v (MinValue_ st') = false)).
    { intros HV H. destruct (IH _ H) as (H1 & H2 & H3 & H4).
      repeat split; trivial;
        destruct H0 as [Heq | HIn];
        try (inversion Heq; subst; now elim (HV Val));
        now apply (H4 K' Val k v). }
    destruct V as [ | b | n | Val0 | l | o];
      try (apply Hskip; intros Val; discriminate).
    clear Hskip.
    destruct (tryParse K) as [k0|] eqn:EK; [|discriminate].
    destruct (tryParse Val0) as [v0|] eqn:EV; [|discriminate].
    intros H. destruct (IH _ H) as (H1 & H2 & H3 & H4). simpl in H1, H2, H3.
    split; [intros x Hx; apply (min_turn k0 _ x Hlt); now apply H1|].
    split; [intros x Hx; apply (max_turn k0 _ x Hlt); now apply H2|].
    split; [intros x Hx; apply (min_turn v0 _ x Hlt); now apply H3|].
    intros K' Val k v [Heq | HIn] HK HV; [|now apply (H4 K' Val k v)].
    inversion Heq; subst. rewrite EK in HK. rewrite EV in HV.
    inversion HK; inversion HV; subst. repeat split.
    + destruct (ltb k (Min_ st')) eqn:E; [|reflexivity].
      apply H1 in E. now rewrite (min_turn_self k _ Hlt) in E.
    + destruct (ltb (Max_ st') k) eqn:E; [|reflexivity].
      apply H2 in E. now rewrite (max_turn_self k _ Hlt) in E.
    + destruct (ltb v (MinValue_ st')) eqn:E; [|reflexivity].
      apply H3 in E. now rewrite (min_turn_self v _ Hlt) in E.
Qed.

(** A mapping that [parseJSON] returns is not empty, carries the maximum
    deployment target it was given, and bounds what it read: no key of
    the object lies below [MinimumKeyVersion] or above
    [MaximumKeyVersion], and no value lies below [MinimumValue]. *)
Theorem parseJSON_bounds Obj MaximumDeploymentTarget R :
  LtStrict ->
  parseJSON Obj MaximumDeploymentTarget = Some R ->
  MaximumValue R = MaximumDeploymentTarget
  /\ Mapping R <> []
  /\ (forall K Val k v,
        In (K, JString Val) Obj ->
        tryParse K = Some k -> tryParse Val = Some v ->
        ltb k (MinimumKeyVersion R) = false
        /\ ltb (MaximumKeyVersion R) k = false
        /\ ltb v (MinimumValue R) = false).
Proof.
  intros Hlt. unfold parseJSON.
  destruct (parseJSON_loop Obj _) as [st'|] eqn:Hloop; [|discriminate].
  destruct (Mapping_ st') as [|e M] eqn:HM; simpl; [discriminate|].
  intros H. inversion H. subst. simpl.
  split; [reflexivity|]. split; [discriminate|].
  exact (proj2 (proj2 (proj2 (loop_bounds _ _ _ Hlt Hloop)))).
Qed.

(** Members whose keys differ from [Key] leave its entry as it is. *)
Lemma loop_find_preserved Obj st st' Key :
  parseJSON_loop Obj st = Some st' ->
  (forall K Val k,
     In (K, JString Val) Obj -> tryParse K = Some k ->
     eqb (normalize k) Key = false) ->
  find Key (Mapping_ st') = find Key (Mapping_ st).
Proof.
  revert st. induction Obj as [|[K V] Obj IH]; intros st.
  - simpl. intros H _. now inversion H.
  - rewrite loop_cons. intros H Hother.
    assert (Htail : forall K' Val k,
              In (K', JString Val) Obj -> tryParse K' = Some k ->
              eqb (normalize k) Key = false)
      by (intros K' Val k HIn; apply (Hother K' Val k); now right).
    destruct V as [ | b | n | Val0 | l | o]; try (now apply IH).
    destruct (tryParse K) as [k0|] eqn:EK; [|discriminate].
    destruct (tryParse Val0) as [v0|]; [|discriminate].
    rewrite (IH _ H Htail). simpl.
    now rewrite (Hother K Val0 k0 (or_introl eq_refl) EK).
Qed.

(** Parsing, then mapping: a key of the object whose normal form is not
    assigned again by a later member is mapped to the value the object
    gives it, whatever the bounds handed to [map]. *)
Theorem parseJSON_then_map pre K Val post k v MaximumDeploymentTarget R
    MinimumValue MaximumValue fuel :
  LtStrict -> EqRefl ->
  parseJSON (pre ++ (K, JString Val) :: post) MaximumDeploymentTarget
  = Some R ->
  tryParse K = Some k -> tryParse Val = Some v ->
  (forall K' Val' k',
     In (K', JString Val') post -> tryParse K' = Some k' ->
     eqb (normalize k') (normalize k) = false) ->
  (1 <= fuel)%nat ->
  map_rec fuel R k MinimumValue MaximumValue = Some (Some v).
Proof.
  intros Hlt Hrefl Hparse HK HV Hlater Hfuel.
  destruct (parseJSON_bounds _ _ _ Hlt Hparse) as (_ & _ & Hb).
  destruct (Hb K Val k v (in_elt _ _ _) HK HV) as (Hlo & Hhi & _).
  assert (Hfind : find (normalize k) (Mapping R) = Some v).
  { unfold parseJSON in Hparse. rewrite loop_app in Hparse.
    destruct (parseJSON_loop pre _) as [st1|]; [|discriminate].
    rewrite loop_cons, HK, HV in Hparse.
    destruct (parseJSON_loop post _) as [st'|] eqn:Hpost; [|discriminate].
    destruct (empty (Mapping_ st')); [discriminate|].
    inversion Hparse. subst. simpl.
    rewrite (loop_find_preserved _ _ _ _ Hpost Hlater). simpl.
    now rewrite Hrefl. }
  destruct fuel as [|fuel]; [lia|].
  cbn [map_rec]. now rewrite Hlo, Hhi, Hfind.
Qed.

(** [parseDarwinSDKSettingsJSON] gives no SDK information in three cases
    only: [Version] is missing, no string or no version; so is
    [MaximumDeploymentTarget]; or the object holds a [VersionMap] with a
    [macOS_iOSMac] object that [parseJSON] rejects.  A missing version
    map is no failure. *)
Theorem sdk_settings_fail_iff Obj :
  parseDarwinSDKSettingsJSON Obj = None
  <-> getVersionKey Obj "Version" = None
      \/ getVersionKey Obj "MaximumDeploymentTarget" = None
      \/ exists VM M,
           getObject Obj "VersionMap" = Some VM
           /\ getObject VM "macOS_iOSMac" = Some M
           /\ (bad_member M \/ no_strings M).
Proof.
  unfold parseDarwinSDKSettingsJSON.
  destruct (getVersionKey Obj "Version") as [Ver|];
    [|split; [now left | reflexivity]].
  destruct (getVersionKey Obj "MaximumDeploymentTarget") as [MDT|];
    [|split; [right; now left | reflexivity]].
  destruct (getObject Obj "VersionMap") as [VM|].
  - destruct (getObject VM "macOS_iOSMac") as [M|] eqn:HMe.
    + destruct (parseJSON M MDT) as [R|] eqn:Hp.
      * split; [discriminate|].
        intros [H | [H | (VM' & M' & HVM & HM & Hbad)]]; try discriminate.
        inversion HVM; subst. rewrite HMe in HM. inversion HM; subst.
        rewrite (proj2 (parseJSON_fails_iff _ MDT) Hbad) in Hp. discriminate.
      * split; [intros _ | reflexivity]. right; right.
        exists VM, M. split; [reflexivity|]. split; [exact HMe|].
        exact (proj1 (parseJSON_fails_iff _ _) Hp).
    + split; [discriminate|].
      intros [H | [H | (VM' & M' & HVM & HM & _)]]; try discriminate.
      inversion HVM; subst. rewrite HMe in HM. discriminate.
  - split; [discriminate|].
    intros [H | [H | (VM' & M' & HVM & _)]]; discriminate.
Qed.

End Parse.

End DarwinFacts.

(** * The further properties at concrete inputs *)

Module MoreSamples.

(* opcode 1 with a constant expression in its immediate slot *)
Definition imm5_const : MCInst :=
  mkMCInst (SP_other 1) [MO_Reg 1; MO_Expr (MCConstantExpr 9)].

(* a call, opcode 7, to a symbol with a Sparc relocation kind *)
Definition call_f : MCInst :=
  mkMCInst (SP_other 7) [MO_Expr (SparcMCExpr 5 (MCSymbolRefExpr "f"))].

(* the state that encoding Sample.call_tls from Sample.s0 leaves *)
Definition s1 : EmitterState :=
  mkState [64; 0; 0; 0]
    [MCFixup_create 0 Sample.tls_sym (fixup_sparc_other 31)] 8.

End MoreSamples.

Lemma relocated_operand_is_zero_witness :
  snd (getBranchOnRegTargetOpValue false Sample.Ctx Sample.getFixupKind
         Sample.evaluateAsAbsolute Sample.br_label 0 Sample.STI []) <> []
  /\ fst (getBranchOnRegTargetOpValue false Sample.Ctx Sample.getFixupKind
            Sample.evaluateAsAbsolute Sample.br_label 0 Sample.STI [])
     = inr 0.
Proof.
  assert (H : snd (getBranchOnRegTargetOpValue false Sample.Ctx
                     Sample.getFixupKind Sample.evaluateAsAbsolute
                     Sample.br_label 0 Sample.STI []) <> [])
    by (vm_compute; discriminate).
  split; [exact H|].
  exact (proj2 (proj2 (proj2 (proj2 (proj2 (proj2 (proj2
           (relocated_operand_is_zero false Sample.Ctx Sample.getFixupKind
              Sample.evaluateAsAbsolute Sample.br_label 0%nat Sample.STI
              []))))))) H).
Defined.

Lemma constant_expression_like_immediate_witness :
  getOperand MoreSamples.imm5_const 1 = inr (MO_Expr (MCConstantExpr 9))
  /\ getSImm13OpValue false Sample.Ctx Sample.getFixupKind
       MoreSamples.imm5_const 1 Sample.STI []
     = (inr (CInt.to_unsigned 9), [])
  /\ getImm5OpValue false Sample.Ctx Sample.getFixupKind
       MoreSamples.imm5_const 1 Sample.STI []
     = (imm5OpEncoder 9, [])
  /\ getSImm5OpValue false Sample.Ctx Sample.getFixupKind
       MoreSamples.imm5_const 1 Sample.STI []
     = (sImm5OpEncoder 9, []).
Proof.
  split; [reflexivity|].
  apply (constant_expression_like_immediate false Sample.Ctx
           Sample.getFixupKind MoreSamples.imm5_const 1 Sample.STI 9 []).
  right. reflexivity.
Defined.

Lemma imm5_operand_decodes_witness :
  getOperand MoreSamples.imm5_const 1 = inr (MO_Expr (MCConstantExpr 9))
  /\ getImm5OpValue false Sample.Ctx Sample.getFixupKind
       MoreSamples.imm5_const 1 Sample.STI []
     = (inr 23, [])
  /\ (@nil MCFixup = [] /\ 0 <= 23 < 32 /\ spec_decode_imm5 23 = 9).
Proof.
  split; [reflexivity|]. split; [reflexivity|].
  apply (proj1 (imm5_operand_decodes false Sample.Ctx Sample.getFixupKind
                  MoreSamples.imm5_const 1 Sample.STI 9 []
                  (or_intror eq_refl)) 23 []).
  reflexivity.
Defined.

Lemma simm5_fixup_kind_selection_witness :
  getOperand Sample.imm5_sym 1 = inr (MO_Expr (MCSymbolRefExpr "x"))
  /\ getKind (MCSymbolRefExpr "x") <> Constant
  /\ getKind (MCSymbolRefExpr "x") <> Target
  /\ getSImm5OpValue false Sample.Ctx Sample.getFixupKind
       Sample.imm5_sym 1 Sample.STI []
     = (inr 0, [MCFixup_create 0 (MCSymbolRefExpr "x") fixup_sparc_5]).
Proof.
  assert (H1 : getOperand Sample.imm5_sym 1
               = inr (MO_Expr (MCSymbolRefExpr "x"))) by reflexivity.
  assert (H2 : getKind (MCSymbolRefExpr "x") <> Constant) by discriminate.
  assert (H3 : getKind (MCSymbolRefExpr "x") <> Target) by discriminate.
  split; [exact H1|]. split; [exact H2|]. split; [exact H3|].
  exact (proj2 (proj2 (simm5_fixup_kind_selection false Sample.Ctx
                         Sample.getFixupKind Sample.imm5_sym 1 Sample.STI
                         (MCSymbolRefExpr "x") [] H1 H2)) H3).
Defined.

Lemma branch_pred_target_value_witness :
  getOperand Sample.br_label 0 = inr (MO_Expr (MCSymbolRefExpr "L"))
  /\ getBranchPredTargetOpValue false Sample.Ctx Sample.getFixupKind
       Sample.evaluateAsAbsolute Sample.br_label 0 Sample.STI []
     = (inr 0, [MCFixup_create 0 (MCSymbolRefExpr "L") fixup_sparc_br19]).
Proof.
  split; [reflexivity|].
  apply (proj2 (proj2 (branch_pred_target_value false Sample.Ctx
                         Sample.getFixupKind Sample.evaluateAsAbsolute
                         Sample.br_label 0 Sample.STI []))
           (MCSymbolRefExpr "L")).
  reflexivity.
Defined.

Lemma call_target_fixup_witness :
  getOpcode MoreSamples.call_f <> TLS_CALL
  /\ getOperand MoreSamples.call_f 0
     = inr (MO_Expr (SparcMCExpr 5 (MCSymbolRefExpr "f")))
  /\ getCallTargetOpValue false Sample.getFixupKind
       MoreSamples.call_f 0 Sample.STI []
     = (inr 0,
        [MCFixup_create 0 (SparcMCExpr 5 (MCSymbolRefExpr "f"))
           (fixup_sparc_other 5)]).
Proof.
  assert (H1 : getOpcode MoreSamples.call_f <> TLS_CALL) by discriminate.
  split; [exact H1|]. split; [reflexivity|].
  apply (proj1 (call_target_fixup false Sample.getFixupKind
                  MoreSamples.call_f 0 Sample.STI _ [] H1 eq_refl)
           5%N (MCSymbolRefExpr "f")).
  reflexivity.
Defined.

Lemma machine_op_value_plain_expression_witness :
  getKind (MCConstantExpr 42) <> Target
  /\ Sample.evaluateAsAbsolute (MCConstantExpr 42) = Some 42
  /\ getMachineOpValue false Sample.Ctx Sample.getFixupKind
       Sample.evaluateAsAbsolute Sample.br_imm (MO_Expr (MCConstantExpr 42))
       Sample.STI []
     = (inr (CInt.to_unsigned 42), [])
  /\ getKind (MCSymbolRefExpr "L") <> Target
  /\ Sample.evaluateAsAbsolute (MCSymbolRefExpr "L") = None
  /\ getMachineOpValue false Sample.Ctx Sample.getFixupKind
       Sample.evaluateAsAbsolute Sample.br_label
       (MO_Expr (MCSymbolRefExpr "L")) Sample.STI []
     = (inl (Unreachable "Unhandled expression!"), []).
Proof.
  assert (H1 : getKind (MCConstantExpr 42) <> Target) by discriminate.
  assert (H2 : getKind (MCSymbolRefExpr "L") <> Target) by discriminate.
  split; [exact H1|]. split; [reflexivity|]. split.
  - apply (proj1 (machine_op_value_plain_expression false Sample.Ctx
                    Sample.getFixupKind Sample.evaluateAsAbsolute
                    Sample.br_imm Sample.STI (MCConstantExpr 42) [] H1) 42).
    reflexivity.
  - split; [exact H2|]. split; [reflexivity|].
    apply (proj2 (machine_op_value_plain_expression false Sample.Ctx
                    Sample.getFixupKind Sample.evaluateAsAbsolute
                    Sample.br_label Sample.STI (MCSymbolRefExpr "L") [] H2)).
    reflexivity.
Defined.

Lemma tls_call_callee_checked_witness :
  getOpcode Sample.call_tls = TLS_CALL
  /\ getOperand Sample.call_tls 1 = inr (MO_Expr Sample.tls_sym)
  /\ ~ (exists k, Sample.tls_sym
                  = SparcMCExpr k (MCSymbolRefExpr "__tls_get_addr"))
  /\ getCallTargetOpValue true Sample.getFixupKind Sample.call_tls 1
       Sample.STI [] = (inr 0, [])
  /\ exists msg,
       getCallTargetOpValue false Sample.getFixupKind Sample.call_tls 1
         Sample.STI [] = (inl (AssertionFailed msg), []).
Proof.
  assert (Hno : ~ (exists k, Sample.tls_sym
                     = SparcMCExpr k (MCSymbolRefExpr "__tls_get_addr")))
    by (intros (k & Hk); discriminate Hk).
  destruct (tls_call_callee_checked Sample.getFixupKind Sample.call_tls 1
              Sample.STI Sample.tls_sym [] eq_refl eq_refl)
    as (Hnd & _ & Hdbg).
  split; [reflexivity|]. split; [reflexivity|]. split; [exact Hno|].
  split; [exact Hnd | exact (Hdbg Hno)].
Defined.

Lemma encode_writes_whole_word_witness :
  Sample.verifyInstructionPredicates Sample.call_tls
    (Sample.computeAvailableFeatures (getFeatureBits Sample.STI)) = inr tt
  /\ Sample.getBinaryCodeForInstr false Sample.call_tls Sample.STI
       (Fixups Sample.s0) = (inr 1073741824, [])
  /\ exists bytes,
       OS (snd (Sample.encode false Sample.call_tls Sample.STI Sample.s0))
       = OS Sample.s0 ++ bytes
       /\ List.length bytes = 4%nat
       /\ Forall (fun b => 0 <= b < 256) bytes
       /\ from_big_endian
            (if isLittleEndian Sample.Ctx then rev bytes else bytes)
          = CInt.to_unsigned 1073741824.
Proof.
  split; [reflexivity|]. split; [reflexivity|].
  apply (proj1 (encode_writes_whole_word false Sample.Ctx Sample.getFixupKind
                  Sample.evaluateAsAbsolute Sample.computeAvailableFeatures
                  Sample.verifyInstructionPredicates
                  (Sample.getBinaryCodeForInstr false)
                  Sample.call_tls Sample.STI Sample.s0) 1073741824 []);
    reflexivity.
Defined.

Lemma encode_fixups_witness :
  Sample.verifyInstructionPredicates Sample.call_tls
    (Sample.computeAvailableFeatures (getFeatureBits Sample.STI)) = inr tt
  /\ exists new,
       Fixups (snd (Sample.encode false Sample.call_tls Sample.STI Sample.s0))
       = snd (Sample.getBinaryCodeForInstr false Sample.call_tls Sample.STI
                (Fixups Sample.s0)) ++ new
       /\ (List.length new <= 1)%nat
       /\ (tls_operand_index (getOpcode Sample.call_tls) = 0%nat -> new = [])
       /\ Forall (fun F =>
                    getOffset F = 0
                    /\ getOperand Sample.call_tls
                         (tls_operand_index (getOpcode Sample.call_tls))
                       = inr (MO_Expr (getValue F))
                    /\ exists k sub,
                         getValue F = SparcMCExpr k sub
                         /\ getFixupKindOf F = Sample.getFixupKind k) new.
Proof.
  split; [reflexivity|].
  apply (proj2 (encode_fixups false Sample.Ctx Sample.getFixupKind
                  Sample.evaluateAsAbsolute Sample.computeAvailableFeatures
                  Sample.verifyInstructionPredicates
                  (Sample.getBinaryCodeForInstr false)
                  Sample.call_tls Sample.STI Sample.s0)).
  reflexivity.
Defined.

Lemma tls_operand_asserted_zero_witness :
  tls_operand_index (getOpcode Sample.call_tls) <> 0%nat
  /\ Sample.encode false Sample.call_tls Sample.STI Sample.s0
     = (inr tt, MoreSamples.s1)
  /\ exists MO code Fx1,
       getOperand Sample.call_tls
         (tls_operand_index (getOpcode Sample.call_tls)) = inr MO
       /\ Sample.getBinaryCodeForInstr false Sample.call_tls Sample.STI
            (Fixups Sample.s0) = (inr code, Fx1)
       /\ getMachineOpValue false Sample.Ctx Sample.getFixupKind
            Sample.evaluateAsAbsolute Sample.call_tls MO Sample.STI Fx1
          = (inr 0, Fixups MoreSamples.s1)
       /\ MCNumEmitted MoreSamples.s1 = (MCNumEmitted Sample.s0 + 1)%N.
Proof.
  assert (Hnz : tls_operand_index (getOpcode Sample.call_tls) <> 0%nat)
    by discriminate.
  split; [exact Hnz|]. split; [reflexivity|].
  apply (tls_operand_asserted_zero Sample.Ctx Sample.getFixupKind
           Sample.evaluateAsAbsolute Sample.computeAvailableFeatures
           Sample.verifyInstructionPredicates
           (Sample.getBinaryCodeForInstr false)
           Sample.call_tls Sample.STI Sample.s0 MoreSamples.s1 Hnz).
  reflexivity.
Defined.

Lemma tls_immediate_operand_unrelocated_witness :
  tls_operand_index (getOpcode Sample.tls_add_imm) <> 0%nat
  /\ getOperand Sample.tls_add_imm
       (tls_operand_index (getOpcode Sample.tls_add_imm)) = inr (MO_Imm 4)
  /\ CInt.to_unsigned 4 <> 0
  /\ Sample.encode true Sample.tls_add_imm Sample.STI Sample.s0
     = (inr tt, mkState [0; 0; 0; 0] [] 8)
  /\ Sample.encode false Sample.tls_add_imm Sample.STI Sample.s0
     = (inl (AssertionFailed "Unexpected operand value!"),
        mkState [0; 0; 0; 0] [] 7).
Proof.
  assert (Hnz : tls_operand_index (getOpcode Sample.tls_add_imm) <> 0%nat)
    by discriminate.
  assert (Hne : CInt.to_unsigned 4 <> 0) by discriminate.
  destruct (tls_immediate_operand_unrelocated Sample.Ctx Sample.getFixupKind
              Sample.evaluateAsAbsolute Sample.computeAvailableFeatures
              Sample.verifyInstructionPredicates
              (Sample.getBinaryCodeForInstr true)
              Sample.tls_add_imm Sample.STI Sample.s0 4 0 []
              Hnz eq_refl eq_refl eq_refl) as [Hnd Hdbg].
  split; [exact Hnz|]. split; [reflexivity|]. split; [exact Hne|].
  split; [exact Hnd | exact (Hdbg Hne)].
Defined.

(** ** The version mapping at a concrete SDK *)

Module DarwinRuns.
Import Darwin DarwinSample DarwinFacts.

Local Open Scope N_scope.

#[local] Existing Instance Ops.

Lemma sample_major_only : MajorOnlyHasNoMinor (VT := Ops).
Proof. intros M. reflexivity. Qed.

Lemma sample_lt_strict : LtStrict (VT := Ops).
Proof.
  split.
  - intros a. simpl. unfold V_ltb.
    now rewrite !N.ltb_irrefl, andb_false_r.
  - intros a b c. simpl. unfold V_ltb. intros Hab Hbc.
    apply orb_true_iff in Hab. apply orb_true_iff in Hbc.
    apply orb_true_iff.
    rewrite !andb_true_iff, !N.ltb_lt, !N.eqb_eq in *. lia.
Qed.

Lemma sample_eq_refl : EqRefl (VT := Ops).
Proof. intros a. simpl. unfold V_eqb. now rewrite !N.eqb_refl. Qed.

(* the mapping that macOS_iOSMac parses to, for SDK 11.3 *)
Definition R0 : RelatedTargetVersionMapping V :=
  mkRelatedTargetVersionMapping
    (mkV 10 (Some 15)) (mkV 11 (Some 2)) (mkV 13 (Some 1)) (mkV 11 (Some 3))
    [(mkV 11 (Some 2), mkV 14 (Some 3));
     (mkV 11 None, mkV 14 (Some 0));
     (mkV 10 (Some 15), mkV 13 (Some 1))].

Lemma map_recursion_depth_witness :
  MajorOnlyHasNoMinor (VT := Ops)
  /\ (2 <= 5)%nat
  /\ exists answer,
       map_rec (VT := Ops) 2 R0 (mkV 11 (Some 1)) (mkV 13 (Some 1)) None
       = Some answer
       /\ map_rec (VT := Ops) 5 R0 (mkV 11 (Some 1)) (mkV 13 (Some 1)) None
          = Some answer.
Proof.
  assert (Hf : (2 <= 5)%nat) by (repeat constructor).
  split; [exact sample_major_only|]. split; [exact Hf|].
  exact (map_recursion_depth (VT := Ops) R0 (mkV 11 (Some 1))
           (mkV 13 (Some 1)) None 5 sample_major_only Hf).
Defined.

Lemma map_major_fallback_witness :
  MajorOnlyHasNoMinor (VT := Ops)
  /\ (2 <= 2)%nat
  /\ ltb (VersionTupleOps := Ops) (mkV 10 (Some 16)) (MinimumKeyVersion R0)
     = false
  /\ ltb (VersionTupleOps := Ops) (MaximumKeyVersion R0) (mkV 10 (Some 16))
     = false
  /\ find (VT := Ops) (normalize (mkV 10 (Some 16))) (Mapping R0) = None
  /\ getMinor (VersionTupleOps := Ops) (mkV 10 (Some 16)) = Some 16
  /\ map_rec (VT := Ops) 2 R0 (mkV 10 (Some 16)) (mkV 13 (Some 1)) None
     = Some (Some (mkV 13 (Some 1))).
Proof.
  assert (Hf : (2 <= 2)%nat) by constructor.
  split; [exact sample_major_only|]. split; [exact Hf|].
  split; [reflexivity|]. split; [reflexivity|]. split; [reflexivity|].
  split; [reflexivity|].
  exact (map_major_fallback (VT := Ops) R0 (mkV 10 (Some 16))
           (mkV 13 (Some 1)) None 2 16 sample_major_only Hf
           eq_refl eq_refl eq_refl eq_refl).
Defined.

Lemma map_answers_from_table_witness :
  map_rec (VT := Ops) 2 R0 (mkV 11 (Some 2)) (mkV 13 (Some 1)) None
  = Some (Some (mkV 14 (Some 3)))
  /\ (mkV 14 (Some 3) = mkV 13 (Some 1)
      \/ None = Some (mkV 14 (Some 3))
      \/ exists K, In (K, mkV 14 (Some 3)) (Mapping R0)).
Proof.
  split; [reflexivity|].
  apply (map_answers_from_table (VT := Ops) R0 (mkV 11 (Some 2))
           (mkV 13 (Some 1)) None 2).
  reflexivity.
Defined.

Lemma parseJSON_bounds_witness :
  LtStrict (VT := Ops)
  /\ parseJSON (VT := Ops) macOS_iOSMac (mkV 11 (Some 3)) = Some R0
  /\ MaximumValue R0 = mkV 11 (Some 3)
  /\ Mapping R0 <> []
  /\ forall K Val k v,
       In (K, JString Val) macOS_iOSMac ->
       tryParse (VersionTupleOps := Ops) K = Some k ->
       tryParse (VersionTupleOps := Ops) Val = Some v ->
       ltb (VersionTupleOps := Ops) k (MinimumKeyVersion R0) = false
       /\ ltb (VersionTupleOps := Ops) (MaximumKeyVersion R0) k = false
       /\ ltb (VersionTupleOps := Ops) v (MinimumValue R0) = false.
Proof.
  split; [exact sample_lt_strict|]. split; [reflexivity|].
  exact (parseJSON_bounds (VT := Ops) macOS_iOSMac (mkV 11 (Some 3)) R0
           sample_lt_strict eq_refl).
Defined.

Lemma parseJSON_then_map_witness :
  LtStrict (VT := Ops)
  /\ EqRefl (VT := Ops)
  /\ parseJSON (VT := Ops)
       ([("10.15", JString "13.1")]
        ++ ("11.0", JString "14.0")
           :: [("11.2", JString "14.3"); ("comment", JNumber 1)])
       (mkV 11 (Some 3)) = Some R0
  /\ tryParse (VersionTupleOps := Ops) "11.0" = Some (mkV 11 (Some 0))
  /\ tryParse (VersionTupleOps := Ops) "14.0" = Some (mkV 14 (Some 0))
  /\ (1 <= 1)%nat
  /\ map_rec (VT := Ops) 1 R0 (mkV 11 (Some 0)) (mkV 13 (Some 1)) None
     = Some (Some (mkV 14 (Some 0))).
Proof.
  assert (Hf : (1 <= 1)%nat) by constructor.
  split; [exact sample_lt_strict|]. split; [exact sample_eq_refl|].
  split; [reflexivity|]. split; [reflexivity|]. split; [reflexivity|].
  split; [exact Hf|].
  apply (parseJSON_then_map (VT := Ops)
           [("10.15", JString "13.1")] "11.0" "14.0"
           [("11.2", JString "14.3"); ("comment", JNumber 1)]
           (mkV 11 (Some 0)) (mkV 14 (Some 0)) (mkV 11 (Some 3)) R0
           (mkV 13 (Some 1)) None 1 sample_lt_strict sample_eq_refl
           eq_refl eq_refl eq_refl); [|exact Hf].
  intros K' Val' k' [Heq | [Heq | []]] Hp; inversion Heq; subst.
  vm_compute in Hp. inversion Hp. reflexivity.
Defined.

End DarwinRuns.

Lemma builds_agree_on_returns_witness :
  getBranchTargetOpValue false Sample.Ctx Sample.getFixupKind
    Sample.evaluateAsAbsolute Sample.br_label 0 Sample.STI []
  = (inr 0, [MCFixup_create 0 (MCSymbolRefExpr "L") fixup_sparc_br22])
  /\ getBranchTargetOpValue true Sample.Ctx Sample.getFixupKind
       Sample.evaluateAsAbsolute Sample.br_label 0 Sample.STI []
     = (inr 0, [MCFixup_create 0 (MCSymbolRefExpr "L") fixup_sparc_br22]).
Proof.
  split; [reflexivity|].
  destruct (builds_agree_on_returns Sample.Ctx Sample.getFixupKind
              Sample.evaluateAsAbsolute Sample.br_label 0 Sample.STI [])
    as (_ & _ & _ & _ & _ & Hbr & _).
  apply Hbr. reflexivity.
Defined.

Module DarwinExamples.
Import Darwin DarwinSample.

Local Open Scope N_scope.

(** The settings of the sample SDK parse to its version, its maximum
    deployment target and the mapping of its three version pairs. *)
Example sdk_settings_parse :
  parseDarwinSDKSettingsJSON (VT := Ops) SDKSettings
  = Some (mkDarwinSDKInfo (mkV 11 (Some 3)) (mkV 11 (Some 3))
            (Some DarwinRuns.R0)).
Proof. reflexivity. Qed.

(** Settings without a version map parse, with no mapping. *)
Example sdk_settings_without_map :
  parseDarwinSDKSettingsJSON (VT := Ops)
    [("Version", JString "11.3");
     ("MaximumDeploymentTarget", JString "11.3")]
  = Some (mkDarwinSDKInfo (mkV 11 (Some 3)) (mkV 11 (Some 3)) None).
Proof. reflexivity. Qed.

(** An empty [macOS_iOSMac] object makes the whole of the settings
    fail. *)
Example sdk_settings_empty_map :
  parseDarwinSDKSettingsJSON (VT := Ops)
    [("Version", JString "11.3");
     ("MaximumDeploymentTarget", JString "11.3");
     ("VersionMap", JObject [("macOS_iOSMac", JObject [])])]
  = None.
Proof. reflexivity. Qed.

End DarwinExamples.
